(** * Sheep metrics scraper: a shallow embedding of
      [script/puppeteer_scrape_sheep.js] and the properties of its
      text parser, metrics builder, change detector and writer.

    JavaScript strings are sequences of UTF-16 code units; they are
    modelled as lists of [N].  The functions below never depend on a
    code unit being below 2^16, so no range side condition is carried
    around.  The run time's JSON routines are modelled after ECMA-262
    ([JSON.stringify], [JSON.parse]); the conversion between numeric
    literals and IEEE doubles is kept abstract (class [Engine]). *)

From Stdlib Require Import String Ascii List NArith Arith Bool Lia.
Import ListNotations.

Set Implicit Arguments.

(* ================================================================== *)
(** ** Strings *)
(* ================================================================== *)

Definition jsstring := list N.

(** An ASCII literal of the source as a sequence of code units. *)
Definition lit (s : string) : jsstring :=
  map N_of_ascii (list_ascii_of_string s).

(** [a === b] on two strings. *)
Fixpoint str_eqb (a b : jsstring) : bool :=
  match a, b with
  | [], [] => true
  | x :: a', y :: b' => N.eqb x y && str_eqb a' b'
  | _, _ => false
  end.

(** [String.prototype.split] with a one-code-unit separator. *)
Fixpoint split_on (sep : N) (s : jsstring) : list jsstring :=
  match s with
  | [] => [[]]
  | c :: r =>
      if N.eqb c sep then [] :: split_on sep r
      else match split_on sep r with
           | [] => [[c]]
           | piece :: pieces => (c :: piece) :: pieces
           end
  end.

(** WhiteSpace and LineTerminator code points of ECMA-262, the ones
    [String.prototype.trim] removes (all lie in the basic plane). *)
Definition is_trim_space (c : N) : bool :=
  ((9 <=? c) && (c <=? 13) || (c =? 32) || (c =? 160) || (c =? 5760)
   || (8192 <=? c) && (c <=? 8202) || (c =? 8232) || (c =? 8233)
   || (c =? 8239) || (c =? 8287) || (c =? 12288) || (c =? 65279))%N.

Fixpoint trim_start (s : jsstring) : jsstring :=
  match s with
  | [] => []
  | c :: r => if is_trim_space c then trim_start r else s
  end.

Definition trim_end (s : jsstring) : jsstring := rev (trim_start (rev s)).

(** [l.trim()] *)
Definition trim (s : jsstring) : jsstring := trim_end (trim_start s).

(** [Boolean(l)] for a string: the empty string is the only falsy one. *)
Definition truthy_str (s : jsstring) : bool :=
  match s with [] => false | _ :: _ => true end.

(** [allText.split("\n").map(l => l.trim()).filter(Boolean)] *)
Definition lines_of (allText : jsstring) : list jsstring :=
  filter truthy_str (map trim (split_on 10%N allText)).

(** The literal marker line. *)
Definition marker : jsstring := lit "Select Row".

Definition is_marker (l : jsstring) : bool := str_eqb l marker.

(** [lines.filter(l => l === "Select Row").length] *)
Definition selectRowCount (lines : list jsstring) : nat :=
  length (filter is_marker lines).

(* ================================================================== *)
(** ** Field stripping: [replace] of the class [[^\d-]] by the empty string *)
(* ================================================================== *)

(** [\d] without the unicode flag: the ten ASCII digits. *)
Definition is_digit (c : N) : bool := ((48 <=? c) && (c <=? 57))%N.

(** The negated class [[^\d-]]. *)
Definition class_not_digit_minus (c : N) : bool :=
  negb (is_digit c || (c =? 45)%N).

(** A global replace whose pattern is one character class: every code
    unit the class matches is replaced, the others are copied. *)
Fixpoint replace_class (cls : N -> bool) (by_ : jsstring) (s : jsstring)
  : jsstring :=
  match s with
  | [] => []
  | c :: r => (if cls c then by_ else [c]) ++ replace_class cls by_ r
  end.

Definition strip (s : jsstring) : jsstring :=
  replace_class class_not_digit_minus [] s.

(** The spec's wording of the same operation: keep the ASCII digits and
    the minus signs, drop everything else. *)
Definition keep_digits_and_minus (s : jsstring) : jsstring :=
  filter (fun c => is_digit c || (c =? 45)%N) s.

(* ================================================================== *)
(** ** Exceptions *)
(* ================================================================== *)

Inductive error : Type :=
| TypeError      (* a method called on [undefined] *)
| SyntaxError    (* [JSON.parse] on malformed text *)
| BrowserError.  (* a rejected puppeteer promise: a timeout, a failed launch *)

Inductive result (A : Type) : Type :=
| Ok (a : A)
| Throw (e : error).
Arguments Ok {A} a.
Arguments Throw {A} e.

Definition rbind {A B : Type} (r : result A) (k : A -> result B) : result B :=
  match r with
  | Ok a => k a
  | Throw e => Throw e
  end.

Declare Scope result_scope.
Delimit Scope result_scope with result.
Notation "x <- r ;; k" := (rbind r (fun x => k))
  (at level 61, r at next level, right associativity) : result_scope.

(* ================================================================== *)
(** ** Row parser *)
(* ================================================================== *)

(** One parsed table row.  [block[1]] is stored as it is read, so it is
    a string or [undefined] ([None]); the other eight fields are results
    of [replace] and hence strings. *)
Record row : Type := mkRow {
  sheepweekindex : option jsstring;
  total_head_inc_reoffers : jsstring;
  clearance_rate_mm : jsstring;
  amount_over_reserve : jsstring;
  arli_ckg_dw : jsstring;
  arl_change_sheepindex : jsstring;
  total_head_change_sheepindex : jsstring;
  clearance_rate_change_sheepindex : jsstring;
  vor_change_sheepindex : jsstring
}.

(** [a.slice(from, to)] for [0 <= from <= to]. *)
Definition slice {A : Type} (a : list A) (from to : nat) : list A :=
  firstn (to - from) (skipn from a).

(** [block[k].replace(...)]: a [TypeError] when [block[k]] is
    [undefined]. *)
Definition replace_at (block : list jsstring) (k : nat) : result jsstring :=
  match nth_error block k with
  | Some s => Ok (strip s)
  | None => Throw TypeError
  end.

(** The object literal of lines 114-124; its properties are evaluated in
    source order. *)
Definition make_row (block : list jsstring) : result row :=
  (let f1 := nth_error block 1 in
   f2 <- replace_at block 2 ;;
   f3 <- replace_at block 3 ;;
   f4 <- replace_at block 4 ;;
   f5 <- replace_at block 5 ;;
   f6 <- replace_at block 6 ;;
   f7 <- replace_at block 7 ;;
   f8 <- replace_at block 8 ;;
   f9 <- replace_at block 9 ;;
   Ok (mkRow f1 f2 f3 f4 f5 f6 f7 f8 f9))%result.

(** The [for] loop of lines 106-128.  [todo] counts the iterations that
    remain ([lines.length - i]); [rows] is the array built so far. *)
Fixpoint rows_loop (lines : list jsstring) (todo i : nat) (rows : list row)
  : result (list row) :=
  match todo with
  | O => Ok rows
  | S todo' =>
      match nth_error lines i with
      | Some l =>
          if is_marker l then
            (r <- make_row (slice lines i (i + 11)) ;;
             rows_loop lines todo' (S i) (rows ++ [r]))%result
          else rows_loop lines todo' (S i) rows
      | None => rows_loop lines todo' (S i) rows
      end
  end.

Definition parse_rows (lines : list jsstring) : result (list row) :=
  rows_loop lines (length lines) 0 [].

(* ================================================================== *)
(** ** Metrics builder *)
(* ================================================================== *)

(** The root object.  A slot holds a row or [null] ([None]). *)
Record metrics : Type := mkMetrics {
  updated_at : jsstring;
  this_week : option row;
  last_week : option row;
  two_weeks_ago : option row;
  three_weeks_ago : option row
}.

(** [rows[k] || null]: [rows[k]] is [undefined] past the end of the
    array, and an object, which is truthy, otherwise. *)
Definition or_null (rows : list row) (k : nat) : option row :=
  match nth_error rows k with
  | Some r => Some r
  | None => None
  end.

(** Lines 157-163; [now] is the value of [new Date().toISOString()]. *)
Definition build_metrics (now : jsstring) (rows : list row) : metrics :=
  {| updated_at := now;
     this_week := or_null rows 0;
     last_week := or_null rows 1;
     two_weeks_ago := or_null rows 2;
     three_weeks_ago := or_null rows 3 |}.

(* ================================================================== *)
(** ** JSON text: quoting and unquoting of strings *)
(* ================================================================== *)

Definition is_high_surrogate (c : N) : bool :=
  ((55296 <=? c) && (c <=? 56319))%N.
Definition is_low_surrogate (c : N) : bool :=
  ((56320 <=? c) && (c <=? 57343))%N.

(** One lower-case hexadecimal digit. *)
Definition hex_digit (d : N) : N :=
  (if d <? 10 then 48 + d else 87 + d)%N.

(** [UnicodeEscape]: a backslash, [u] and four hexadecimal digits. *)
Definition unicode_escape (c : N) : jsstring :=
  [92; 117; hex_digit ((c / 4096) mod 16); hex_digit ((c / 256) mod 16);
   hex_digit ((c / 16) mod 16); hex_digit (c mod 16)]%N.

(** The escape of one code unit that is not part of a surrogate pair. *)
Definition quote_unit (c : N) : jsstring :=
  (if c =? 8 then [92; 98]             (* \b *)
   else if c =? 9 then [92; 116]       (* \t *)
   else if c =? 10 then [92; 110]      (* \n *)
   else if c =? 12 then [92; 102]      (* \f *)
   else if c =? 13 then [92; 114]      (* \r *)
   else if c =? 34 then [92; 34]       (* the double quote *)
   else if c =? 92 then [92; 92]       (* the backslash *)
   else if c <? 32 then unicode_escape c
   else if is_high_surrogate c || is_low_surrogate c then unicode_escape c
   else [c])%N.

(** The body of [QuoteJSONString]: the string is read by code points, so
    a high surrogate followed by a low one is copied as a pair and any
    other surrogate is escaped. *)
Fixpoint quote_chars (s : jsstring) : jsstring :=
  match s with
  | [] => []
  | c :: r =>
      if is_high_surrogate c then
        match r with
        | d :: r' =>
            if is_low_surrogate d then c :: d :: quote_chars r'
            else unicode_escape c ++ quote_chars r
        | [] => unicode_escape c
        end
      else quote_unit c ++ quote_chars r
  end.

Definition QuoteJSONString (s : jsstring) : jsstring :=
  [34%N] ++ quote_chars s ++ [34%N].

Definition hex_value (h : N) : option N :=
  (if (48 <=? h) && (h <=? 57) then Some (h - 48)
   else if (97 <=? h) && (h <=? 102) then Some (h - 87)
   else if (65 <=? h) && (h <=? 70) then Some (h - 55)
   else None)%N.

Definition hex4 (h1 h2 h3 h4 : N) : option N :=
  match hex_value h1, hex_value h2, hex_value h3, hex_value h4 with
  | Some a, Some b, Some c, Some d => Some (((a * 16 + b) * 16 + c) * 16 + d)%N
  | _, _, _, _ => None
  end.

(** The single-character escapes of the JSON grammar. *)
Definition simple_escape (e : N) : option N :=
  (if e =? 34 then Some 34
   else if e =? 92 then Some 92
   else if e =? 47 then Some 47
   else if e =? 98 then Some 8
   else if e =? 102 then Some 12
   else if e =? 110 then Some 10
   else if e =? 114 then Some 13
   else if e =? 116 then Some 9
   else None)%N.

(** The characters of a JSON string after its opening quote, up to and
    including the closing quote; returns the decoded string and the rest
    of the text. *)
Fixpoint parse_string_chars (s : jsstring) : option (jsstring * jsstring) :=
  match s with
  | [] => None
  | c :: r =>
      if (c =? 34)%N then Some ([], r)
      else if (c =? 92)%N then
        match r with
        | [] => None
        | e :: r1 =>
            if (e =? 117)%N then
              match r1 with
              | h1 :: h2 :: h3 :: h4 :: r2 =>
                  match hex4 h1 h2 h3 h4 with
                  | Some u =>
                      match parse_string_chars r2 with
                      | Some (t, rest) => Some (u :: t, rest)
                      | None => None
                      end
                  | None => None
                  end
              | _ => None
              end
            else
              match simple_escape e with
              | Some u =>
                  match parse_string_chars r1 with
                  | Some (t, rest) => Some (u :: t, rest)
                  | None => None
                  end
              | None => None
              end
        end
      else if (c <? 32)%N then None
      else
        match parse_string_chars r with
        | Some (t, rest) => Some (c :: t, rest)
        | None => None
        end
  end.

(** JSON white space: tab, line feed, carriage return, space. *)
Definition is_json_ws (c : N) : bool :=
  ((c =? 9) || (c =? 10) || (c =? 13) || (c =? 32))%N.

Fixpoint skip_ws (s : jsstring) : jsstring :=
  match s with
  | [] => []
  | c :: r => if is_json_ws c then skip_ws r else s
  end.

(** [s] without the prefix [p], when it starts with it. *)
Fixpoint strip_prefix (p s : jsstring) : option jsstring :=
  match p, s with
  | [], _ => Some s
  | x :: p', y :: s' => if (x =? y)%N then strip_prefix p' s' else None
  | _ :: _, [] => None
  end.

(** The longest prefix of digits and what follows it. *)
Fixpoint span_digits (s : jsstring) : jsstring * jsstring :=
  match s with
  | [] => ([], [])
  | c :: r =>
      if is_digit c then let (ds, rest) := span_digits r in (c :: ds, rest)
      else ([], s)
  end.

(** The JSON number grammar: an optional minus, an integer part without
    a superfluous leading zero, an optional fraction, an optional
    exponent.  Returns the literal and the rest of the text. *)
Definition scan_int (s : jsstring) : option (jsstring * jsstring) :=
  match s with
  | [] => None
  | c :: r =>
      if (c =? 48)%N then Some ([c], r)
      else if is_digit c then let (ds, rest) := span_digits r in Some (c :: ds, rest)
      else None
  end.

Definition scan_frac (s : jsstring) : option (jsstring * jsstring) :=
  match s with
  | c :: r =>
      if (c =? 46)%N then
        match span_digits r with
        | ([], _) => None
        | (ds, rest) => Some (c :: ds, rest)
        end
      else Some ([], s)
  | [] => Some ([], s)
  end.

Definition scan_exp (s : jsstring) : option (jsstring * jsstring) :=
  match s with
  | c :: r =>
      if (c =? 101)%N || (c =? 69)%N then
        let (sign, r1) :=
          match r with
          | g :: r' => if (g =? 43)%N || (g =? 45)%N then ([g], r') else ([], r)
          | [] => ([], r)
          end in
        match span_digits r1 with
        | ([], _) => None
        | (ds, rest) => Some (c :: sign ++ ds, rest)
        end
      else Some ([], s)
  | [] => Some ([], s)
  end.

Definition scan_number (s : jsstring) : option (jsstring * jsstring) :=
  let (sign, s1) :=
    match s with
    | c :: r => if (c =? 45)%N then ([c], r) else ([], s)
    | [] => ([], s)
    end in
  match scan_int s1 with
  | None => None
  | Some (ip, s2) =>
      match scan_frac s2 with
      | None => None
      | Some (fp, s3) =>
          match scan_exp s3 with
          | None => None
          | Some (ep, s4) => Some (sign ++ ip ++ fp ++ ep, s4)
          end
      end
  end.

(* ================================================================== *)
(** ** The run time: JSON values, [JSON.stringify], [JSON.parse] *)
(* ================================================================== *)

(** IEEE doubles and their conversions from and to decimal text belong
    to the engine; the script never computes with a number, it can only
    meet one in a stored file.  They are an interface here. *)
Class Engine : Type := {
  Num : Type;
  StringToNumber : jsstring -> Num;   (* value of a JSON number literal *)
  NumberToJSON : Num -> jsstring;     (* its text; [null] when not finite *)
  NumberIsFalsy : Num -> bool         (* zero and NaN *)
}.

Section Runtime.

Context {E : Engine}.

#[local] Unset Elimination Schemes.
Inductive value : Type :=
| VUndefined
| VNull
| VBool (b : bool)
| VNumber (n : Num)
| VString (s : jsstring)
| VArray (elems : list value)
| VObject (props : list (jsstring * value)).
#[local] Set Elimination Schemes.

(** [ToBoolean] *)
Definition truthy (v : value) : bool :=
  match v with
  | VUndefined | VNull => false
  | VBool b => b
  | VNumber n => negb (NumberIsFalsy n)
  | VString s => truthy_str s
  | VArray _ | VObject _ => true
  end.

(** [parts.join(sep)] *)
Fixpoint join (sep : jsstring) (parts : list jsstring) : jsstring :=
  match parts with
  | [] => []
  | p :: ps =>
      match ps with
      | [] => p
      | _ :: _ => p ++ sep ++ join sep ps
      end
  end.

(** The last step of [SerializeJSONObject] and [SerializeJSONArray]:
    brackets around the members, on lines of their own when there is a
    gap. *)
Definition bracket (opening closing : N) (gap indent stepback : jsstring)
    (partial : list jsstring) : jsstring :=
  match partial with
  | [] => [opening; closing]
  | _ :: _ =>
      match gap with
      | [] => [opening] ++ join [44%N] partial ++ [closing]
      | _ :: _ =>
          [opening] ++ [10%N] ++ indent
          ++ join ([44%N; 10%N] ++ indent) partial
          ++ [10%N] ++ stepback ++ [closing]
      end
  end.

(** One member of an object: quoted key, colon, a space when there is a
    gap, and the text of the value. *)
Definition member_text (gap k text : jsstring) : jsstring :=
  QuoteJSONString k ++ [58%N]
  ++ match gap with [] => [] | _ :: _ => [32%N] end ++ text.

(** Members whose value serializes to [undefined] are left out. *)
Fixpoint object_partial (ser : value -> option jsstring) (gap : jsstring)
    (props : list (jsstring * value)) : list jsstring :=
  match props with
  | [] => []
  | (k, v) :: props' =>
      match ser v with
      | Some text => member_text gap k text :: object_partial ser gap props'
      | None => object_partial ser gap props'
      end
  end.

(** Elements that serialize to [undefined] are written as [null]. *)
Definition array_partial (ser : value -> option jsstring)
    (elems : list value) : list jsstring :=
  map (fun e => match ser e with Some text => text | None => lit "null" end)
      elems.

(** [SerializeJSONProperty] with no replacer, on values without [toJSON];
    [None] is [undefined]. *)
Fixpoint SerializeJSONProperty (gap indent : jsstring) (v : value)
  : option jsstring :=
  match v with
  | VUndefined => None
  | VNull => Some (lit "null")
  | VBool b => Some (if b then lit "true" else lit "false")
  | VNumber n => Some (NumberToJSON n)
  | VString s => Some (QuoteJSONString s)
  | VArray elems =>
      Some (bracket 91 93 gap (indent ++ gap) indent
              (array_partial (SerializeJSONProperty gap (indent ++ gap)) elems))
  | VObject props =>
      Some (bracket 123 125 gap (indent ++ gap) indent
              (object_partial (SerializeJSONProperty gap (indent ++ gap)) gap props))
  end.

(** [JSON.stringify(v, null, space)] for a numeric [space]. *)
Definition JSON_stringify (v : value) (space : nat) : option jsstring :=
  SerializeJSONProperty (repeat 32%N (Nat.min space 10)) [] v.

(** *** Own properties of an ordinary object *)

Fixpoint digits_value (acc : N) (s : jsstring) : option N :=
  match s with
  | [] => Some acc
  | c :: r => if is_digit c then digits_value (acc * 10 + (c - 48))%N r else None
  end.

(** The array index a key denotes, if any: a canonical decimal numeral
    below 2^32 - 1. *)
Definition array_index (k : jsstring) : option N :=
  match k with
  | [] => None
  | c :: r =>
      if (c =? 48)%N && negb (match r with [] => true | _ :: _ => false end)
      then None
      else match digits_value 0 k with
           | Some n => if (n <? 4294967295)%N then Some n else None
           | None => None
           end
  end.

Fixpoint has_key (k : jsstring) (props : list (jsstring * value)) : bool :=
  match props with
  | [] => false
  | (k', _) :: props' => str_eqb k k' || has_key k props'
  end.

Fixpoint set_existing (k : jsstring) (v : value) (props : list (jsstring * value))
  : list (jsstring * value) :=
  match props with
  | [] => []
  | (k', v') :: props' =>
      if str_eqb k k' then (k', v) :: props'
      else (k', v') :: set_existing k v props'
  end.

(** A new index key goes before the first key that is not a smaller
    index. *)
Fixpoint insert_index (n : N) (k : jsstring) (v : value)
    (props : list (jsstring * value)) : list (jsstring * value) :=
  match props with
  | [] => [(k, v)]
  | (k', v') :: props' =>
      match array_index k' with
      | Some n' =>
          if (n' <? n)%N then (k', v') :: insert_index n k v props'
          else (k, v) :: props
      | None => (k, v) :: props
      end
  end.

(** [CreateDataProperty] on an object whose properties are listed in
    the order [OrdinaryOwnPropertyKeys] gives: array indices ascending,
    then the other keys in creation order; a key already present keeps
    its place and takes the new value. *)
Definition define_property (props : list (jsstring * value)) (k : jsstring)
    (v : value) : list (jsstring * value) :=
  if has_key k props then set_existing k v props
  else match array_index k with
       | Some n => insert_index n k v props
       | None => props ++ [(k, v)]
       end.

(** *** The parser *)

(** [fuel] bounds the number of nested calls.  Between two calls that
    take one unit of fuel each at least one character is consumed, so
    twice the length of the text plus one never runs out (see
    [JSON_parse] and [parse_value_fuel]). *)
Fixpoint parse_value (fuel : nat) (s : jsstring) {struct fuel}
  : option (value * jsstring) :=
  match fuel with
  | O => None
  | S fuel' =>
      match skip_ws s with
      | [] => None
      | c :: r =>
          if (c =? 123)%N then
            match skip_ws r with
            | c' :: r' =>
                if (c' =? 125)%N then Some (VObject [], r')
                else parse_members fuel' [] r
            | [] => None
            end
          else if (c =? 91)%N then
            match skip_ws r with
            | c' :: r' =>
                if (c' =? 93)%N then Some (VArray [], r')
                else parse_elements fuel' [] r
            | [] => None
            end
          else if (c =? 34)%N then
            match parse_string_chars r with
            | Some (str, rest) => Some (VString str, rest)
            | None => None
            end
          else if (c =? 110)%N then
            match strip_prefix (lit "null") (c :: r) with
            | Some rest => Some (VNull, rest)
            | None => None
            end
          else if (c =? 116)%N then
            match strip_prefix (lit "true") (c :: r) with
            | Some rest => Some (VBool true, rest)
            | None => None
            end
          else if (c =? 102)%N then
            match strip_prefix (lit "false") (c :: r) with
            | Some rest => Some (VBool false, rest)
            | None => None
            end
          else
            match scan_number (c :: r) with
            | Some (literal, rest) => Some (VNumber (StringToNumber literal), rest)
            | None => None
            end
      end
  end

with parse_members (fuel : nat) (acc : list (jsstring * value)) (s : jsstring)
    {struct fuel} : option (value * jsstring) :=
  match fuel with
  | O => None
  | S fuel' =>
      match skip_ws s with
      | c :: r =>
          if (c =? 34)%N then
            match parse_string_chars r with
            | Some (k, r1) =>
                match skip_ws r1 with
                | c1 :: r2 =>
                    if (c1 =? 58)%N then
                      match parse_value fuel' r2 with
                      | Some (v, r3) =>
                          match skip_ws r3 with
                          | c3 :: r4 =>
                              if (c3 =? 44)%N then
                                parse_members fuel' (define_property acc k v) r4
                              else if (c3 =? 125)%N then
                                Some (VObject (define_property acc k v), r4)
                              else None
                          | [] => None
                          end
                      | None => None
                      end
                    else None
                | [] => None
                end
            | None => None
            end
          else None
      | [] => None
      end
  end

with parse_elements (fuel : nat) (acc : list value) (s : jsstring)
    {struct fuel} : option (value * jsstring) :=
  match fuel with
  | O => None
  | S fuel' =>
      match parse_value fuel' s with
      | Some (v, r1) =>
          match skip_ws r1 with
          | c :: r2 =>
              if (c =? 44)%N then parse_elements fuel' (acc ++ [v]) r2
              else if (c =? 93)%N then Some (VArray (acc ++ [v]), r2)
              else None
          | [] => None
          end
      | None => None
      end
  end.

(** [JSON.parse(text)] without a reviver; [None] is a [SyntaxError]. *)
Definition JSON_parse (text : jsstring) : option value :=
  match parse_value (S (2 * length text)) text with
  | Some (v, rest) =>
      match skip_ws rest with
      | [] => Some v
      | _ :: _ => None
      end
  | None => None
  end.

(* ================================================================== *)
(** ** The in-memory objects as JavaScript values *)
(* ================================================================== *)

Definition string_or_undefined (x : option jsstring) : value :=
  match x with
  | Some s => VString s
  | None => VUndefined
  end.

(** The object literal of lines 114-124, keys in source order. *)
Definition row_value (r : row) : value :=
  VObject
    [ (lit "sheepweekindex", string_or_undefined (sheepweekindex r));
      (lit "total_head_inc_reoffers", VString (total_head_inc_reoffers r));
      (lit "clearance_rate_mm", VString (clearance_rate_mm r));
      (lit "amount_over_reserve", VString (amount_over_reserve r));
      (lit "arli_ckg_dw", VString (arli_ckg_dw r));
      (lit "arl_change_sheepindex", VString (arl_change_sheepindex r));
      (lit "total_head_change_sheepindex", VString (total_head_change_sheepindex r));
      (lit "clearance_rate_change_sheepindex",
        VString (clearance_rate_change_sheepindex r));
      (lit "vor_change_sheepindex", VString (vor_change_sheepindex r)) ].

Definition slot_value (x : option row) : value :=
  match x with
  | Some r => row_value r
  | None => VNull
  end.

(** The object literal of lines 157-163. *)
Definition metrics_value (m : metrics) : value :=
  VObject
    [ (lit "updated_at", VString (updated_at m));
      (lit "this_week", slot_value (this_week m));
      (lit "last_week", slot_value (last_week m));
      (lit "two_weeks_ago", slot_value (two_weeks_ago m));
      (lit "three_weeks_ago", slot_value (three_weeks_ago m)) ].

(* ================================================================== *)
(** ** The script *)
(* ================================================================== *)

(** The awaited browser calls, in the order the script makes them. *)
Inductive stage : Type :=
| Launch            (* puppeteer.launch *)
| NewPage           (* browser.newPage *)
| Goto              (* page.goto, until the network is idle *)
| WaitForSelector   (* page.waitForSelector, 30 s *)
| ContentFrame      (* page.$ and frameHandle.contentFrame *)
| Evaluate.         (* frame.evaluate *)

(** What one run meets outside the script.  The output file is given
    by its text, the string [fs.readFileSync(outputFile, "utf8")]
    returns; a string written by [fs.writeFileSync] is read back as it
    was written when it has no lone surrogate. *)
Record world : Type := mkWorld {
  stored : option jsstring;   (* the output file's text; [None]: no file *)
  rejects : stage -> bool;    (* the browser calls that fail *)
  innerText : jsstring;       (* the frame's [document.body.innerText] *)
  now : jsstring              (* [new Date().toISOString()] *)
}.

(** The console lines that matter to the properties below. *)
Inductive message : Type :=
| LoadedPrevious
| NoPreviousFile
| NoRowsFound
| ExpectedFourRows (found : nat)
| NoChangesSkippingWrite
| ChangesWritingFile
| WrittenTo
| ScrapeCompleted.

Inductive event : Type :=
| BrowserLaunched
| BrowserClosed
| FileWritten (text : jsstring)      (* fs.writeFileSync(outputFile, text) *)
| ConsoleLog (m : message)
| ConsoleError (m : message).

(** How the async function ends. *)
Inductive termination : Type :=
| Returned                 (* the function returns or runs off its end *)
| Exited (code : N)        (* process.exit(code) *)
| Rejected (e : error).    (* an exception nobody catches *)

(** A computation of the script: it extends the trace of events and
    either yields a value or ends the run. *)
Definition proc (A : Type) : Type :=
  list event -> list event * (A + termination).

Definition ret {A : Type} (a : A) : proc A := fun t => (t, inl a).

Definition bind {A B : Type} (p : proc A) (k : A -> proc B) : proc B :=
  fun t =>
    match p t with
    | (t', inl a) => k a t'
    | (t', inr e) => (t', inr e)
    end.

Definition emit (e : event) : proc unit := fun t => (t ++ [e], inl tt).
Definition finish {A : Type} (e : termination) : proc A := fun t => (t, inr e).
Definition throw {A : Type} (e : error) : proc A := finish (Rejected e).

Definition lift {A : Type} (r : result A) : proc A :=
  match r with
  | Ok a => ret a
  | Throw e => throw e
  end.

Declare Scope proc_scope.
Delimit Scope proc_scope with proc.
Notation "x <- p ;; k" := (bind p (fun x => k))
  (at level 61, p at next level, right associativity) : proc_scope.
Notation "p ;; k" := (bind p (fun _ => k))
  (at level 61, right associativity) : proc_scope.

(** An awaited browser call: it resolves or rejects. *)
Definition await (w : world) (s : stage) : proc unit :=
  if rejects w s then throw BrowserError else ret tt.

(** Lines 20-28. *)
Definition load_previous (w : world) : proc value :=
  (match stored w with
   | Some text =>
       match JSON_parse text with
       | Some v => emit (ConsoleLog LoadedPrevious) ;; ret v
       | None => throw SyntaxError
       end
   | None => emit (ConsoleLog NoPreviousFile) ;; ret VNull
   end)%proc.

(** [a === b] on two results of [JSON.stringify]. *)
Definition text_eqb (a b : option jsstring) : bool :=
  match a, b with
  | Some x, Some y => str_eqb x y
  | None, None => true
  | _, _ => false
  end.

(** The condition of lines 172-175. *)
Definition unchanged (previousMetrics : value) (m : metrics) : bool :=
  truthy previousMetrics
  && text_eqb (JSON_stringify previousMetrics 0)
              (JSON_stringify (metrics_value m) 0).

(** [fs.writeFileSync(outputFile, data)]; [data] must be a string. *)
Definition writeFileSync (data : option jsstring) : proc unit :=
  match data with
  | Some text => emit (FileWritten text)
  | None => throw TypeError
  end.

(** Lines 136-199: validation, metrics, change detection, output. *)
Definition finish_run (w : world) (previousMetrics : value) (rows : list row)
  : proc unit :=
  (if Nat.eqb (length rows) 0 then
     emit (ConsoleError NoRowsFound) ;;
     emit BrowserClosed ;;
     finish (Exited 1)
   else
     (if negb (Nat.eqb (length rows) 4)
      then emit (ConsoleError (ExpectedFourRows (length rows)))
      else ret tt) ;;
     let m := build_metrics (now w) rows in
     if unchanged previousMetrics m then
       emit (ConsoleLog NoChangesSkippingWrite) ;;
       emit BrowserClosed ;;
       finish Returned
     else
       emit (ConsoleLog ChangesWritingFile) ;;
       writeFileSync (JSON_stringify (metrics_value m) 2) ;;
       emit (ConsoleLog WrittenTo) ;;
       emit BrowserClosed ;;
       emit (ConsoleLog ScrapeCompleted))%proc.

(** Lines 34-130: the browser session up to the parsed rows. *)
Definition scrape (w : world) : proc (list row) :=
  (await w Launch ;;
   emit BrowserLaunched ;;
   await w NewPage ;;
   await w Goto ;;
   await w WaitForSelector ;;
   await w ContentFrame ;;
   await w Evaluate ;;
   lift (parse_rows (lines_of (innerText w))))%proc.

(** The whole async function. *)
Definition main (w : world) : proc unit :=
  (previousMetrics <- load_previous w ;;
   rows <- scrape w ;;
   finish_run w previousMetrics rows)%proc.

(** A finished run: its events and the way it ended. *)
Definition run (w : world) : list event * termination :=
  match main w [] with
  | (t, inl _) => (t, Returned)
  | (t, inr e) => (t, e)
  end.

Definition trace (w : world) : list event := fst (run w).
Definition outcome (w : world) : termination := snd (run w).

(** The process exit code: 0 when the function returns, the argument of
    [process.exit] otherwise; left open for an uncaught exception, where
    it depends on how the engine treats unhandled rejections. *)
Definition exit_code (e : termination) : option N :=
  match e with
  | Returned => Some 0%N
  | Exited c => Some c
  | Rejected _ => None
  end.

(** The texts written to the output file during a run. *)
Definition writes (t : list event) : list jsstring :=
  flat_map (fun e => match e with FileWritten text => [text] | _ => [] end) t.

(** The output file after the run. *)
Definition stored_after (w : world) : option jsstring :=
  match rev (writes (trace w)) with
  | text :: _ => Some text
  | [] => stored w
  end.

End Runtime.

(* ================================================================== *)
(** ** Auxiliary definitions for the proofs *)
(* ================================================================== *)

(** The loop of [rows_loop], read over the lines that remain: [rest] is
    [lines] from position [i] on, so [lines.slice(i, i + 11)] is the
    first eleven of them. *)
Fixpoint scan (rest : list jsstring) (rows : list row) : result (list row) :=
  match rest with
  | [] => Ok rows
  | l :: rest' =>
      if is_marker l then
        match make_row (firstn 11 rest) with
        | Ok r => scan rest' (rows ++ [r])
        | Throw e => Throw e
        end
      else scan rest' rows
  end.

(** Every marker line is followed by at least [n] further lines. *)
Definition followed_by (n : nat) (lines : list jsstring) : Prop :=
  forall i, nth_error lines i = Some marker -> i + n < length lines.

(** No line is a marker. *)
Definition marker_free (lines : list jsstring) : Prop :=
  Forall (fun l => l <> marker) lines.

(** A well-formed block: the marker line and ten further lines, none of
    them a marker. *)
Definition well_formed_block (block : list jsstring) : Prop :=
  exists fields,
    block = marker :: fields /\ length fields = 10 /\ marker_free fields.

(** A string without a lone surrogate.  These are the strings that
    survive [fs.writeFileSync] followed by [fs.readFileSync(_, "utf8")]
    unchanged, which is why the file is modelled by its text. *)
Fixpoint well_formed (s : jsstring) : bool :=
  match s with
  | [] => true
  | c :: r =>
      if is_high_surrogate c then
        match r with
        | d :: r' => is_low_surrogate d && well_formed r'
        | [] => false
        end
      else negb (is_low_surrogate c) && well_formed r
  end.

(** A decoded code unit put in front of the string decoded after it. *)
Definition prepend (c : N) (x : option (jsstring * jsstring))
  : option (jsstring * jsstring) :=
  match x with
  | Some (t, rest) => Some (c :: t, rest)
  | None => None
  end.

Section Values.

Context {E : Engine}.

(** Induction over values, with the hypothesis for every element of an
    array and every member of an object. *)
Definition value_ind (P : value -> Prop)
    (Hundef : P VUndefined) (Hnull : P VNull)
    (Hbool : forall b, P (VBool b)) (Hnum : forall n, P (VNumber n))
    (Hstr : forall s, P (VString s))
    (Harr : forall elems, Forall P elems -> P (VArray elems))
    (Hobj : forall props, Forall (fun kv => P (snd kv)) props ->
                          P (VObject props)) :
  forall v, P v :=
  fix go (v : value) : P v :=
    match v with
    | VUndefined => Hundef
    | VNull => Hnull
    | VBool b => Hbool b
    | VNumber n => Hnum n
    | VString s => Hstr s
    | VArray elems =>
        Harr elems
          ((fix all (l : list value) : Forall P l :=
              match l with
              | [] => Forall_nil P
              | e :: l' => Forall_cons e (go e) (all l')
              end) elems)
    | VObject props =>
        Hobj props
          ((fix all (l : list (jsstring * value))
              : Forall (fun kv => P (snd kv)) l :=
              match l with
              | [] => Forall_nil _
              | kv :: l' => Forall_cons kv (go (snd kv)) (all l')
              end) props)
    end.

(** Keys that [CreateDataProperty] appends one after the other: each is
    new and none is an array index. *)
Fixpoint ordinary_keys (acc props : list (jsstring * value)) : bool :=
  match props with
  | [] => true
  | (k, v) :: props' =>
      negb (has_key k acc)
      && match array_index k with None => true | Some _ => false end
      && ordinary_keys (acc ++ [(k, v)]) props'
  end.

(** The values the script itself stores: [null], strings, and objects
    of such values under ordinary keys. *)
Fixpoint plain (v : value) : bool :=
  match v with
  | VNull => true
  | VString _ => true
  | VObject props =>
      ordinary_keys [] props && forallb (fun kv => plain (snd kv)) props
  | _ => false
  end.

(** A bound on the parser's recursion for a value. *)
Fixpoint size (v : value) : nat :=
  match v with
  | VArray elems => S (list_sum (map (fun e => S (size e)) elems))
  | VObject props => S (list_sum (map (fun kv => S (size (snd kv))) props))
  | _ => 1
  end.

(** The line break and indentation written when there is a gap. *)
Definition lead (gap indent : jsstring) : jsstring :=
  match gap with
  | [] => []
  | _ :: _ => 10%N :: indent
  end.

Definition all_ws (s : jsstring) : Prop := Forall (fun c => is_json_ws c = true) s.

(** [v] is written as some text, at least as long as [v] is large, and
    that text, whatever follows it, is read back as [v] once the fuel
    covers the size of [v]. *)
Definition reads_back (v : value) : Prop :=
  forall gap indent, all_ws gap -> all_ws indent ->
  exists text,
    SerializeJSONProperty gap indent v = Some text
    /\ size v <= length text
    /\ forall fuel rest, size v <= fuel ->
         parse_value fuel (text ++ rest) = Some (v, rest).

(** The recursion bound of the members of an object. *)
Definition members_size (props : list (jsstring * value)) : nat :=
  list_sum (map (fun kv => S (size (snd kv))) props).

(** A snapshot all of whose week identifiers are strings. *)
Definition row_defined (r : row) : bool :=
  match sheepweekindex r with Some _ => true | None => false end.

Definition slot_defined (x : option row) : bool :=
  match x with Some r => row_defined r | None => true end.

Definition snapshot_defined (m : metrics) : bool :=
  slot_defined (this_week m) && slot_defined (last_week m)
  && slot_defined (two_weeks_ago m) && slot_defined (three_weeks_ago m).

(** Every awaited browser call resolves. *)
Definition browser_ok (w : world) : Prop := forall s, rejects w s = false.

(** The loader finds no file, or a file that parses to [previous]. *)
Definition loaded (w : world) (previous : value) : Prop :=
  match stored w with
  | Some text => JSON_parse text = Some previous
  | None => previous = VNull
  end.

Definition load_message (w : world) : message :=
  match stored w with
  | Some _ => LoadedPrevious
  | None => NoPreviousFile
  end.

(** The events of a run up to the end of the parse. *)
Definition preamble (w : world) : list event :=
  [ConsoleLog (load_message w); BrowserLaunched].

(** The warning of lines 148-151. *)
Definition warning (rows : list row) : list event :=
  if Nat.eqb (length rows) 4 then []
  else [ConsoleError (ExpectedFourRows (length rows))].

End Values.

(* ================================================================== *)
(** ** Sample inputs *)
(* ================================================================== *)

(** An engine that keeps a number as its literal.  It stands in for the
    real one in the concrete runs below, none of which meets a number. *)
Definition literal_engine : Engine :=
  {| Num := jsstring;
     StringToNumber := fun s => s;
     NumberToJSON := fun s => s;
     NumberIsFalsy := fun _ => false |}.

Definition newline : jsstring := [10%N].

(** The text of one table row as the frame renders it: the marker, the
    week, eight cells and a trailing cell. *)
Definition sample_block (week : string) : jsstring :=
  lit "Select Row" ++ newline ++ lit week ++ newline
  ++ lit "1,500 head" ++ newline ++ lit " 85%" ++ newline
  ++ lit "$1,200" ++ newline ++ lit "110.5" ++ newline
  ++ lit "+2.1" ++ newline ++ lit "-3" ++ newline
  ++ lit "1.5" ++ newline ++ lit "0.8" ++ newline
  ++ lit "Open" ++ newline.

Definition sample_lines (week : string) : list jsstring :=
  [ lit "Select Row"; lit week; lit "1,500 head"; lit "85%"; lit "$1,200";
    lit "110.5"; lit "+2.1"; lit "-3"; lit "1.5"; lit "0.8"; lit "Open" ].

Definition sample_row (week : string) : row :=
  mkRow (Some (lit week)) (lit "1500") (lit "85") (lit "1200") (lit "1105")
        (lit "21") (lit "-3") (lit "15") (lit "08").

Definition text_four_blocks : jsstring :=
  lit "Weekly report" ++ newline ++ newline
  ++ sample_block "W2024-10" ++ sample_block "W2024-09"
  ++ sample_block "W2024-08" ++ sample_block "W2024-07"
  ++ lit "Page 1 of 1".

Definition text_one_block : jsstring :=
  lit "Weekly report" ++ newline ++ sample_block "W2024-10".

Definition text_no_block : jsstring :=
  lit "Weekly report" ++ newline ++ lit "This content is unavailable".

(** A marker whose block stops after the week line. *)
Definition lines_cut_short : list jsstring := [marker; lit "W2024-10"].

(** Two markers in a row: the second is the week field of the first
    block and the start of a block of its own. *)
Definition lines_overlapping : list jsstring :=
  marker :: sample_lines "W2024-10".

Definition monday : jsstring := lit "2024-03-04T06:00:00.000Z".
Definition tuesday : jsstring := lit "2024-03-05T06:00:00.000Z".

(** The snapshot of a page with one block, taken on Monday. *)
Definition monday_one_block : metrics :=
  build_metrics monday [sample_row "W2024-10"].

Definition all_resolve : stage -> bool := fun _ => false.

Definition goto_times_out : stage -> bool :=
  fun s => match s with Goto => true | _ => false end.

(** A first run with no stored file, and the run of the next day over
    the same text and the file the first run left. *)
Definition first_run : world := mkWorld None all_resolve text_four_blocks monday.

Definition second_run : world :=
  mkWorld (stored_after (E := literal_engine) first_run)
          all_resolve text_four_blocks tuesday.

(** One block on the page, and in the file the very snapshot this run
    is about to build. *)
Definition one_block_fresh : world :=
  mkWorld None all_resolve text_one_block monday.

Definition one_block_again : world :=
  mkWorld (stored_after (E := literal_engine) one_block_fresh)
          all_resolve text_one_block monday.

Definition no_block_run : world := mkWorld None all_resolve text_no_block monday.

Definition broken_file_run : world :=
  mkWorld (Some (lit "{ updated_at: ")) all_resolve text_four_blocks monday.

Definition navigation_timeout_run : world :=
  mkWorld None goto_times_out text_four_blocks monday.

(** Tactics for goals about the sample inputs: evaluation, and the
    absence of markers in a list of concrete lines. *)
Ltac concrete := vm_compute; reflexivity.

Ltac not_marker := let H := fresh in intros H; vm_compute in H; discriminate H.

Ltac no_markers := repeat (constructor; [not_marker|]); constructor.

Ltac block_ok :=
  eexists; split; [reflexivity | split; [reflexivity | no_markers]].

(* ================================================================== *)
(** ** Further auxiliary definitions *)
(* ================================================================== *)

(** The characters [strip] keeps. *)
Definition digit_or_minus (c : N) : bool := is_digit c || (c =? 45)%N.

(** A string of digits and minus signs only. *)
Definition numeric_like (s : jsstring) : bool := forallb digit_or_minus s.

(** A line as [lines_of] returns them: not empty, without a line feed,
    and with no white space at either end. *)
Definition clean_line (l : jsstring) : Prop :=
  l <> []
  /\ ~ In 10%N l
  /\ (forall c r, l = c :: r -> is_trim_space c = false)
  /\ (forall p c, l = p ++ [c] -> is_trim_space c = false).

(** The same, as a test. *)
Definition clean_lineb (l : jsstring) : bool :=
  negb (existsb (N.eqb 10) l)
  && match l with
     | c :: _ => negb (is_trim_space c)
     | [] => false
     end
  && match rev l with
     | c :: _ => negb (is_trim_space c)
     | [] => false
     end.

(** Lines put back into one text, a line feed between two lines. *)
Fixpoint unlines (ls : list jsstring) : jsstring :=
  match ls with
  | [] => []
  | l :: rest =>
      match rest with
      | [] => l
      | _ :: _ => l ++ 10%N :: unlines rest
      end
  end.

(** The eight stripped fields of a row. *)
Definition stripped_fields (r : row) : list jsstring :=
  [ total_head_inc_reoffers r; clearance_rate_mm r; amount_over_reserve r;
    arli_ckg_dw r; arl_change_sheepindex r; total_head_change_sheepindex r;
    clearance_rate_change_sheepindex r; vor_change_sheepindex r ].

(** The awaited browser calls. *)
Definition all_stages : list stage :=
  [Launch; NewPage; Goto; WaitForSelector; ContentFrame; Evaluate].

Definition browser_okb (w : world) : bool :=
  forallb (fun s => negb (rejects w s)) all_stages.

Section MoreValues.

Context {E : Engine}.

(** Values whose text never starts with an opening brace, or which are
    falsy: [undefined], [null], booleans, strings and arrays.  Numbers
    are left out, their text being the engine's. *)
Definition foreign_value (v : value) : bool :=
  match v with
  | VObject _ | VNumber _ => false
  | _ => true
  end.


(** The loader does not throw. *)
Definition loadable (w : world) : Prop := exists previous, loaded w previous.

End MoreValues.

(** More sample inputs: a page whose only block is cut after the week
    line, and a file that holds an array. *)
Definition text_cut_short : jsstring :=
  lit "Weekly report" ++ newline ++ lit "Select Row" ++ newline
  ++ lit "W2024-10".

Definition cut_short_run : world :=
  mkWorld None all_resolve text_cut_short monday.

Definition array_file_run : world :=
  mkWorld (Some (lit "[]")) all_resolve text_one_block monday.

(** The file holds Monday's one-block snapshot, written without
    indentation, and the page shows the same block on Tuesday. *)
Definition compact_file_run : world :=
  mkWorld (JSON_stringify (E := literal_engine)
             (metrics_value (E := literal_engine) monday_one_block) 0)
          all_resolve text_one_block tuesday.

(* ================================================================== *)
(** ** Strings and lines *)
(* ================================================================== *)

Lemma str_eqb_eq (a b : jsstring) : str_eqb a b = true <-> a = b.
Proof.
  revert b; induction a as [|x a IH]; intros [|y b]; simpl;
    try (split; [discriminate | discriminate]); try tauto.
  rewrite andb_true_iff, N.eqb_eq, IH.
  split; [intros [-> ->]; reflexivity | intros H; injection H; auto].
Qed.

Lemma str_eqb_refl (a : jsstring) : str_eqb a a = true.
Proof. apply str_eqb_eq; reflexivity. Qed.

Lemma str_eqb_neq (a b : jsstring) : str_eqb a b = false <-> a <> b.
Proof.
  rewrite <- str_eqb_eq. destruct (str_eqb a b); split; intros H;
    try discriminate; try reflexivity; try congruence.
Qed.

Lemma is_marker_true (l : jsstring) : is_marker l = true <-> l = marker.
Proof. apply str_eqb_eq. Qed.

Lemma is_marker_false (l : jsstring) : is_marker l = false <-> l <> marker.
Proof. apply str_eqb_neq. Qed.

(** The regular-expression replace keeps exactly the digits and minus
    signs, in their order. *)
Lemma strip_keep (s : jsstring) : strip s = keep_digits_and_minus s.
Proof.
  unfold strip, keep_digits_and_minus, class_not_digit_minus.
  induction s as [|c s IH]; simpl; [reflexivity|].
  destruct (is_digit c || (c =? 45)%N); simpl; rewrite IH; reflexivity.
Qed.

Lemma strip_chars (s : jsstring) (c : N) :
  In c (strip s) <-> In c s /\ (is_digit c = true \/ c = 45%N).
Proof.
  rewrite strip_keep. unfold keep_digits_and_minus.
  rewrite filter_In, orb_true_iff, N.eqb_eq. tauto.
Qed.

(* ================================================================== *)
(** ** The row parser *)
(* ================================================================== *)

Lemma nth_error_slice {A : Type} (a : list A) (i n k : nat) :
  k < n -> nth_error (slice a i (i + n)) k = nth_error a (i + k).
Proof.
  intros Hk. unfold slice.
  replace (i + n - i) with n by lia.
  rewrite nth_error_firstn.
  destruct (Nat.ltb_spec k n); [|lia].
  apply nth_error_skipn.
Qed.

Lemma length_slice {A : Type} (a : list A) (i n : nat) :
  length (slice a i (i + n)) = Nat.min n (length a - i).
Proof.
  unfold slice. replace (i + n - i) with n by lia.
  rewrite length_firstn, length_skipn. reflexivity.
Qed.

Lemma replace_at_ok (block : list jsstring) (k : nat) (s : jsstring) :
  replace_at block k = Ok s <->
  exists l, nth_error block k = Some l /\ s = keep_digits_and_minus l.
Proof.
  unfold replace_at. destruct (nth_error block k) as [l|].
  - rewrite strip_keep. split.
    + intros H; injection H as <-. eauto.
    + intros (l' & H & ->). injection H as ->. reflexivity.
  - split; [discriminate | intros (l & H & _); discriminate].
Qed.

(** The fields of a row that was built, read back from its block. *)
Lemma make_row_fields (block : list jsstring) (r : row) :
  make_row block = Ok r ->
  sheepweekindex r = nth_error block 1
  /\ Some (total_head_inc_reoffers r)
     = option_map keep_digits_and_minus (nth_error block 2)
  /\ Some (clearance_rate_mm r)
     = option_map keep_digits_and_minus (nth_error block 3)
  /\ Some (amount_over_reserve r)
     = option_map keep_digits_and_minus (nth_error block 4)
  /\ Some (arli_ckg_dw r)
     = option_map keep_digits_and_minus (nth_error block 5)
  /\ Some (arl_change_sheepindex r)
     = option_map keep_digits_and_minus (nth_error block 6)
  /\ Some (total_head_change_sheepindex r)
     = option_map keep_digits_and_minus (nth_error block 7)
  /\ Some (clearance_rate_change_sheepindex r)
     = option_map keep_digits_and_minus (nth_error block 8)
  /\ Some (vor_change_sheepindex r)
     = option_map keep_digits_and_minus (nth_error block 9).
Proof.
  unfold make_row, replace_at, rbind.
  repeat match goal with
         | |- context [nth_error block ?k] =>
             lazymatch k with
             | 1 => fail
             | _ => destruct (nth_error block k); [|discriminate]
             end
         end.
  intros H; injection H as <-. simpl.
  rewrite <- !strip_keep. repeat split; reflexivity.
Qed.

(** A row is built exactly when the block reaches offset 9. *)
Lemma make_row_long (block : list jsstring) :
  10 <= length block -> exists r, make_row block = Ok r.
Proof.
  intros H.
  do 10 (destruct block as [|? block]; [simpl in H; lia|]).
  unfold make_row, replace_at; simpl. eauto.
Qed.

Lemma make_row_short (block : list jsstring) :
  length block < 10 -> make_row block = Throw TypeError.
Proof.
  intros H.
  do 10 (destruct block as [|? block]; [reflexivity|]).
  simpl in H; lia.
Qed.

Lemma make_row_error (block : list jsstring) (e : error) :
  make_row block = Throw e -> e = TypeError /\ length block < 10.
Proof.
  intros H. destruct (Nat.lt_ge_cases (length block) 10) as [Hl|Hl].
  - rewrite (make_row_short _ Hl) in H. injection H as <-. auto.
  - destruct (make_row_long _ Hl) as (r & Hr). congruence.
Qed.

Lemma skipn_nth_error {A : Type} (a : list A) (i : nat) (x : A) :
  nth_error a i = Some x -> skipn i a = x :: skipn (S i) a.
Proof.
  revert i; induction a as [|y a IH]; intros [|i] H; try discriminate.
  - injection H as ->. reflexivity.
  - simpl in H. apply IH in H. exact H.
Qed.

Lemma scan_cons (l : jsstring) (rest : list jsstring) (rows : list row) :
  scan (l :: rest) rows =
  if is_marker l then
    match make_row (firstn 11 (l :: rest)) with
    | Ok r => scan rest (rows ++ [r])
    | Throw e => Throw e
    end
  else scan rest rows.
Proof. reflexivity. Qed.

(** The index loop and the loop over the remaining lines agree. *)
Lemma rows_loop_scan (lines : list jsstring) (todo i : nat) (rows : list row) :
  i + todo = length lines ->
  rows_loop lines todo i rows = scan (skipn i lines) rows.
Proof.
  revert i rows. induction todo as [|todo IH]; intros i rows Hlen.
  - simpl. rewrite skipn_all2 by lia. reflexivity.
  - destruct (nth_error lines i) as [l|] eqn:Hnth;
      [|apply nth_error_None in Hnth; lia].
    cbn [rows_loop]. rewrite Hnth.
    unfold slice. replace (i + 11 - i) with 11 by lia.
    rewrite (skipn_nth_error _ _ Hnth), scan_cons.
    destruct (is_marker l).
    + unfold rbind.
      destruct (make_row (firstn 11 (l :: skipn (S i) lines))); [|reflexivity].
      apply IH; lia.
    + apply IH; lia.
Qed.

Lemma parse_rows_scan (lines : list jsstring) :
  parse_rows lines = scan lines [].
Proof. unfold parse_rows. rewrite rows_loop_scan by lia. reflexivity. Qed.

Lemma selectRowCount_cons (l : jsstring) (rest : list jsstring) :
  selectRowCount (l :: rest) =
  (if is_marker l then 1 else 0) + selectRowCount rest.
Proof. unfold selectRowCount; simpl. destruct (is_marker l); reflexivity. Qed.

Lemma followed_by_tail (n : nat) (l : jsstring) (rest : list jsstring) :
  followed_by n (l :: rest) -> followed_by n rest.
Proof.
  intros H i Hi. specialize (H (S i) Hi). simpl in H. lia.
Qed.

Lemma followed_by_weaken (n m : nat) (lines : list jsstring) :
  m <= n -> followed_by n lines -> followed_by m lines.
Proof. intros Hle H i Hi. specialize (H i Hi). lia. Qed.

(** The rows already built stay in front, in their order. *)
Lemma scan_prefix (rest : list jsstring) (acc rows : list row) :
  scan rest acc = Ok rows -> exists more, rows = acc ++ more.
Proof.
  revert acc; induction rest as [|l rest IH]; intros acc H.
  - injection H as <-. exists []. symmetry; apply app_nil_r.
  - rewrite scan_cons in H. destruct (is_marker l).
    + destruct (make_row (firstn 11 (l :: rest))) as [r|e]; [|discriminate].
      apply IH in H. destruct H as (more & ->).
      exists (r :: more). rewrite <- app_assoc. reflexivity.
    + apply IH, H.
Qed.

(** When every marker has nine lines after it, each one yields a row. *)
Lemma scan_followed (rest : list jsstring) (acc : list row) :
  followed_by 9 rest ->
  exists more,
    scan rest acc = Ok (acc ++ more) /\ length more = selectRowCount rest.
Proof.
  revert acc; induction rest as [|l rest IH]; intros acc H.
  - exists []. rewrite app_nil_r. split; reflexivity.
  - rewrite scan_cons, selectRowCount_cons.
    pose proof (followed_by_tail H) as Htail.
    destruct (is_marker l) eqn:Hm.
    + apply is_marker_true in Hm. subst l.
      assert (Hlen : 10 <= length (firstn 11 (marker :: rest))).
      { specialize (H 0 eq_refl). rewrite length_firstn. lia. }
      destruct (make_row_long _ Hlen) as (r & ->).
      destruct (IH (acc ++ [r]) Htail) as (more & -> & Hcount).
      exists (r :: more). rewrite <- app_assoc. simpl. auto.
    + destruct (IH acc Htail) as (more & -> & Hcount).
      exists more. auto.
Qed.

(** The row of the marker at position [i] sits at the position given by
    the number of markers before it. *)
Lemma scan_nth (rest : list jsstring) (acc rows : list row) (i : nat) :
  scan rest acc = Ok rows ->
  nth_error rest i = Some marker ->
  exists r,
    nth_error rows (length acc + selectRowCount (firstn i rest)) = Some r
    /\ make_row (firstn 11 (skipn i rest)) = Ok r.
Proof.
  revert acc i; induction rest as [|l rest IH]; intros acc i H Hi.
  - destruct i; discriminate.
  - rewrite scan_cons in H. destruct i as [|i].
    + injection Hi as ->.
      replace (is_marker marker) with true in H
        by (symmetry; apply is_marker_true; reflexivity).
      simpl skipn. simpl firstn at 1.
      destruct (make_row (firstn 11 (marker :: rest))) as [r|e]; [|discriminate].
      exists r. split; [|reflexivity].
      apply scan_prefix in H. destruct H as (more & ->).
      unfold selectRowCount; simpl. rewrite Nat.add_0_r.
      rewrite <- app_assoc. rewrite nth_error_app2 by lia.
      rewrite Nat.sub_diag. reflexivity.
    + simpl in Hi. rewrite firstn_cons, selectRowCount_cons. simpl skipn.
      destruct (is_marker l).
      * destruct (make_row (firstn 11 (l :: rest))) as [r0|e]; [|discriminate].
        destruct (IH _ _ H Hi) as (r & Hr & Hmk).
        exists r. split; [|exact Hmk].
        rewrite length_app in Hr. simpl in Hr.
        replace (length acc + (1 + selectRowCount (firstn i rest)))
          with (length acc + 1 + selectRowCount (firstn i rest)) by lia.
        exact Hr.
      * destruct (IH _ _ H Hi) as (r & Hr & Hmk).
        exists r. split; [exact Hr | exact Hmk].
Qed.

(** A marker with fewer than nine lines after it makes the loop throw. *)
Lemma scan_short (rest : list jsstring) (acc : list row) (i : nat) :
  nth_error rest i = Some marker ->
  length rest < i + 10 ->
  scan rest acc = Throw TypeError.
Proof.
  revert acc i; induction rest as [|l rest IH]; intros acc i Hi Hlen.
  - destruct i; discriminate.
  - rewrite scan_cons. destruct i as [|i].
    + injection Hi as ->.
      replace (is_marker marker) with true
        by (symmetry; apply is_marker_true; reflexivity).
      rewrite make_row_short; [reflexivity|].
      rewrite length_firstn. lia.
    + simpl in Hi, Hlen.
      assert (Hrest : forall acc', scan rest acc' = Throw TypeError).
      { intros acc'. apply (IH acc' i Hi). lia. }
      destruct (is_marker l); [|apply Hrest].
      destruct (make_row (firstn 11 (l :: rest))) as [r|e] eqn:Hmk.
      * apply Hrest.
      * apply make_row_error in Hmk. destruct Hmk as [-> _]. reflexivity.
Qed.

(** Lines without a marker are passed over. *)
Lemma scan_marker_free (filler rest : list jsstring) (acc : list row) :
  marker_free filler -> scan (filler ++ rest) acc = scan rest acc.
Proof.
  induction 1 as [|l filler Hl _ IH]; [reflexivity|].
  simpl app. rewrite scan_cons.
  apply is_marker_false in Hl. rewrite Hl. exact IH.
Qed.

(** A well-formed block yields its row and nothing else. *)
Lemma scan_block (block rest : list jsstring) (acc : list row) :
  well_formed_block block ->
  exists r, make_row block = Ok r
            /\ scan (block ++ rest) acc = scan rest (acc ++ [r]).
Proof.
  intros (fields & -> & Hlen & Hfree).
  destruct (make_row_long (marker :: fields)) as (r & Hr);
    [simpl; lia|].
  exists r. split; [exact Hr|].
  simpl app. rewrite scan_cons.
  replace (is_marker marker) with true
    by (symmetry; apply is_marker_true; reflexivity).
  replace (firstn 11 (marker :: fields ++ rest)) with (marker :: fields).
  - rewrite Hr. apply scan_marker_free, Hfree.
  - change (marker :: fields ++ rest) with ((marker :: fields) ++ rest).
    rewrite firstn_app.
    assert (Hl : length (marker :: fields) = 11) by (cbn [length]; lia).
    rewrite Hl, Nat.sub_diag, firstn_all2 by lia.
    simpl. rewrite app_nil_r. reflexivity.
Qed.

Lemma scan_no_marker (lines : list jsstring) (acc : list row) :
  selectRowCount lines = 0 -> scan lines acc = Ok acc.
Proof.
  induction lines as [|l lines IH]; [reflexivity|].
  rewrite selectRowCount_cons, scan_cons.
  destruct (is_marker l); [discriminate|]. exact IH.
Qed.

(** The loop only builds rows for markers: no marker, no row; and a row
    list that is empty means there was no marker. *)
Lemma scan_rows_count (rest : list jsstring) (acc rows : list row) :
  scan rest acc = Ok rows -> length rows = length acc + selectRowCount rest.
Proof.
  revert acc; induction rest as [|l rest IH]; intros acc H.
  - injection H as <-. unfold selectRowCount; simpl. lia.
  - rewrite scan_cons in H. rewrite selectRowCount_cons.
    destruct (is_marker l).
    + destruct (make_row (firstn 11 (l :: rest))); [|discriminate].
      apply IH in H. rewrite length_app in H. simpl in H. lia.
    + apply IH in H. lia.
Qed.

(* ================================================================== *)
(** ** Quoting and reading back a string *)
(* ================================================================== *)

Lemma hex_value_digit (d : N) : (d < 16)%N -> hex_value (hex_digit d) = Some d.
Proof.
  intros H. unfold hex_digit, hex_value.
  destruct (N.ltb_spec d 10).
  - replace ((48 <=? 48 + d) && (48 + d <=? 57))%N with true.
    + f_equal; lia.
    + symmetry. apply andb_true_iff. split; apply N.leb_le; lia.
  - replace ((48 <=? 87 + d) && (87 + d <=? 57))%N with false.
    + replace ((97 <=? 87 + d) && (87 + d <=? 102))%N with true.
      * f_equal; lia.
      * symmetry. apply andb_true_iff. split; apply N.leb_le; lia.
    + symmetry. apply andb_false_iff. right. apply N.leb_gt. lia.
Qed.

Lemma hex4_digits (c : N) :
  (c < 65536)%N ->
  hex4 (hex_digit ((c / 4096) mod 16)) (hex_digit ((c / 256) mod 16))
       (hex_digit ((c / 16) mod 16)) (hex_digit (c mod 16)) = Some c.
Proof.
  intros H. unfold hex4.
  rewrite !hex_value_digit by (apply N.mod_lt; discriminate).
  f_equal.
  pose proof (N.div_mod c 16 ltac:(discriminate)) as H0.
  pose proof (N.div_mod (c / 16) 16 ltac:(discriminate)) as H1.
  pose proof (N.div_mod (c / 256) 16 ltac:(discriminate)) as H2.
  replace (c / 16 / 16)%N with (c / 256)%N in H1
    by (rewrite N.Div0.div_div; reflexivity).
  replace (c / 256 / 16)%N with (c / 4096)%N in H2
    by (rewrite N.Div0.div_div; reflexivity).
  assert (H3 : (c / 4096 < 16)%N).
  { apply N.Div0.div_lt_upper_bound. exact H. }
  rewrite (N.mod_small (c / 4096) 16) by exact H3.
  lia.
Qed.

Lemma read_unicode_escape (c : N) (r : jsstring) :
  (c < 65536)%N ->
  parse_string_chars (unicode_escape c ++ r)
  = prepend c (parse_string_chars r).
Proof.
  intros H. unfold unicode_escape.
  cbn [app parse_string_chars].
  change (92 =? 34)%N with false. change (92 =? 92)%N with true.
  change (117 =? 117)%N with true. cbv iota.
  rewrite hex4_digits by exact H. reflexivity.
Qed.

Lemma read_literal (c : N) (r : jsstring) :
  c <> 34%N -> c <> 92%N -> (32 <= c)%N ->
  parse_string_chars (c :: r) = prepend c (parse_string_chars r).
Proof.
  intros H1 H2 H3. cbn [parse_string_chars].
  apply N.eqb_neq in H1, H2. apply N.ltb_ge in H3.
  rewrite H1, H2, H3. reflexivity.
Qed.

Lemma read_quote_unit (c : N) (r : jsstring) :
  parse_string_chars (quote_unit c ++ r) = prepend c (parse_string_chars r).
Proof.
  unfold quote_unit.
  repeat match goal with
         | |- context [(c =? ?k)%N] =>
             destruct (N.eqb_spec c k); [subst c; reflexivity|]
         end.
  destruct (N.ltb_spec c 32).
  - apply read_unicode_escape. lia.
  - destruct (is_high_surrogate c || is_low_surrogate c) eqn:Hs.
    + apply read_unicode_escape.
      unfold is_high_surrogate, is_low_surrogate in Hs.
      apply orb_true_iff in Hs.
      destruct Hs as [Hs|Hs]; apply andb_true_iff in Hs;
        destruct Hs as [_ Hs]; apply N.leb_le in Hs; lia.
    + apply read_literal; assumption.
Qed.

Lemma surrogate_literal (c : N) :
  is_high_surrogate c = true \/ is_low_surrogate c = true ->
  c <> 34%N /\ c <> 92%N /\ (32 <= c)%N.
Proof.
  unfold is_high_surrogate, is_low_surrogate.
  intros [H|H]; apply andb_true_iff in H; destruct H as [H _];
    apply N.leb_le in H; lia.
Qed.

(** Reading back what [QuoteJSONString] wrote, up to the closing quote. *)
Lemma read_quote_chars (s rest : jsstring) :
  parse_string_chars (quote_chars s ++ 34%N :: rest) = Some (s, rest).
Proof.
  remember (length s) as n eqn:Hn.
  assert (Hle : length s <= n) by lia. clear Hn.
  revert s Hle. induction n as [|n IH]; intros s Hle.
  - destruct s; [reflexivity | simpl in Hle; lia].
  - destruct s as [|c r]; [reflexivity|].
    simpl in Hle. cbn [quote_chars].
    destruct (is_high_surrogate c) eqn:Hc.
    + destruct (surrogate_literal c (or_introl Hc)) as (H1 & H2 & H3).
      destruct r as [|d r'].
      * rewrite read_unicode_escape; [reflexivity|].
        unfold is_high_surrogate in Hc. apply andb_true_iff in Hc.
        destruct Hc as [_ Hc]. apply N.leb_le in Hc. lia.
      * destruct (is_low_surrogate d) eqn:Hd.
        -- destruct (surrogate_literal d (or_intror Hd)) as (G1 & G2 & G3).
           cbn [app]. rewrite read_literal by assumption.
           rewrite read_literal by assumption.
           rewrite IH by (simpl in Hle; lia). reflexivity.
        -- rewrite <- app_assoc, read_unicode_escape.
           ++ rewrite IH by lia. reflexivity.
           ++ unfold is_high_surrogate in Hc. apply andb_true_iff in Hc.
              destruct Hc as [_ Hc]. apply N.leb_le in Hc. lia.
    + rewrite <- app_assoc, read_quote_unit.
      rewrite IH by lia. reflexivity.
Qed.

(* ================================================================== *)
(** ** Writing a value and reading it back *)
(* ================================================================== *)

Section RoundTrip.

Context {E : Engine}.

Lemma list_sum_cons (a : nat) (l : list nat) : list_sum (a :: l) = a + list_sum l.
Proof. reflexivity. Qed.

Lemma skip_ws_app (w s : jsstring) : all_ws w -> skip_ws (w ++ s) = skip_ws s.
Proof.
  induction 1 as [|c w Hc _ IH]; [reflexivity|].
  simpl. rewrite Hc. exact IH.
Qed.

Lemma skip_ws_solid (c : N) (s : jsstring) :
  is_json_ws c = false -> skip_ws (c :: s) = c :: s.
Proof. intros H. simpl. rewrite H. reflexivity. Qed.

Lemma parse_value_skip (fuel : nat) (w s : jsstring) :
  all_ws w -> parse_value fuel (w ++ s) = parse_value fuel s.
Proof.
  intros H. destruct fuel; [reflexivity|].
  cbn [parse_value]. rewrite (skip_ws_app _ H). reflexivity.
Qed.

Lemma parse_members_skip (fuel : nat) acc (w s : jsstring) :
  all_ws w -> parse_members fuel acc (w ++ s) = parse_members fuel acc s.
Proof.
  intros H. destruct fuel; [reflexivity|].
  cbn [parse_members]. rewrite (skip_ws_app _ H). reflexivity.
Qed.

Lemma all_ws_lead (gap indent : jsstring) : all_ws indent -> all_ws (lead gap indent).
Proof.
  intros H. destruct gap; [constructor|].
  constructor; [reflexivity | exact H].
Qed.

Lemma all_ws_app (a b : jsstring) : all_ws a -> all_ws b -> all_ws (a ++ b).
Proof. intros Ha Hb. apply Forall_app; split; assumption. Qed.

Lemma all_ws_spaces (n : nat) : all_ws (repeat 32%N n).
Proof. induction n; constructor; [reflexivity | assumption]. Qed.

(** The brackets around a non-empty list of members. *)
Lemma bracket_shape (o c : N) (gap indent stepback p : jsstring)
    (ps : list jsstring) :
  bracket o c gap indent stepback (p :: ps)
  = [o] ++ lead gap indent
    ++ join (44%N :: lead gap indent) (p :: ps)
    ++ lead gap stepback ++ [c].
Proof. unfold bracket, lead. destruct gap; reflexivity. Qed.

Lemma join_cons (sep p q : jsstring) (ps : list jsstring) :
  join sep (p :: q :: ps) = p ++ sep ++ join sep (q :: ps).
Proof. reflexivity. Qed.

Lemma member_text_shape (gap k text : jsstring) :
  exists sp, all_ws sp /\
    member_text gap k text = 34%N :: quote_chars k ++ 34%N :: 58%N :: sp ++ text.
Proof.
  unfold member_text, QuoteJSONString.
  exists (match gap with [] => [] | _ :: _ => [32%N] end). split.
  - destruct gap; repeat constructor.
  - simpl. rewrite <- !app_assoc. reflexivity.
Qed.

Lemma has_key_false_define acc (k : jsstring) (v : value) :
  has_key k acc = false -> array_index k = None ->
  define_property acc k v = acc ++ [(k, v)].
Proof. intros H1 H2. unfold define_property. rewrite H1, H2. reflexivity. Qed.

(** One member followed by a comma or by the closing brace. *)
Lemma parse_members_step (fuel : nat) acc (k sp text rest : jsstring) (v : value)
    (c3 : N) (r4 : jsstring) :
  all_ws sp ->
  parse_value fuel (text ++ rest) = Some (v, rest) ->
  skip_ws rest = c3 :: r4 ->
  parse_members (S fuel) acc
    (34%N :: quote_chars k ++ 34%N :: 58%N :: sp ++ text ++ rest)
  = if (c3 =? 44)%N then parse_members fuel (define_property acc k v) r4
    else if (c3 =? 125)%N then Some (VObject (define_property acc k v), r4)
    else None.
Proof.
  intros Hsp Hv Hrest.
  cbn [parse_members]. rewrite skip_ws_solid by reflexivity.
  change (34 =? 34)%N with true. cbv iota.
  rewrite read_quote_chars. rewrite skip_ws_solid by reflexivity.
  change (58 =? 58)%N with true. cbv iota.
  rewrite (parse_value_skip _ _ Hsp), Hv, Hrest. reflexivity.
Qed.

Lemma reads_back_null : reads_back VNull.
Proof.
  intros gap indent _ _. exists (lit "null"). split; [reflexivity|].
  split; [simpl; lia|].
  intros [|fuel] rest Hf; [simpl in Hf; lia|]. reflexivity.
Qed.

Lemma reads_back_string (s : jsstring) : reads_back (VString s).
Proof.
  intros gap indent _ _. exists (QuoteJSONString s). split; [reflexivity|].
  split; [simpl; lia|].
  intros [|fuel] rest Hf; [simpl in Hf; lia|].
  unfold QuoteJSONString. rewrite <- !app_assoc.
  cbn [app parse_value]. rewrite skip_ws_solid by reflexivity.
  change (34 =? 123)%N with false. change (34 =? 91)%N with false.
  change (34 =? 34)%N with true. cbv iota.
  rewrite read_quote_chars. reflexivity.
Qed.

(** The members of an object whose values read back: they are all
    written, and the parser appends them to the members read so far. *)
Lemma members_read_back (gap indent : jsstring)
    (props : list (jsstring * value)) :
  all_ws gap -> all_ws indent ->
  Forall (fun kv => reads_back (snd kv)) props ->
  forall acc, ordinary_keys acc props = true ->
  exists texts,
    object_partial (SerializeJSONProperty gap indent) gap props = texts
    /\ length texts = length props
    /\ members_size props <= list_sum (map (@length N) texts)
    /\ forall fuel ws rest,
         props <> [] -> all_ws ws -> members_size props <= fuel ->
         parse_members fuel acc
           (join (44%N :: lead gap indent) texts ++ ws ++ 125%N :: rest)
         = Some (VObject (acc ++ props), rest).
Proof.
  intros Hgap Hindent Hall.
  induction Hall as [|[k v] props Hv _ IH]; intros acc Hkeys.
  - exists []. repeat split; [apply Nat.le_refl|].
    intros fuel ws rest Hne. contradiction.
  - cbn [ordinary_keys] in Hkeys.
    apply andb_true_iff in Hkeys. destruct Hkeys as [Hkeys Hkeys'].
    apply andb_true_iff in Hkeys. destruct Hkeys as [Hnew Hidx].
    apply negb_true_iff in Hnew.
    destruct (array_index k) eqn:Hk; [discriminate|]. clear Hidx.
    destruct (IH _ Hkeys') as (texts & Htexts & Hlen & Hsize & Hparse).
    destruct (Hv gap indent Hgap Hindent) as (text & Hser & Hbig & Hread).
    cbn [object_partial snd] in *. rewrite Hser, Htexts.
    exists (member_text gap k text :: texts).
    split; [reflexivity|]. split; [simpl; rewrite Hlen; reflexivity|].
    split.
    { unfold members_size in *. cbn [map snd]. rewrite !list_sum_cons.
      unfold member_text, QuoteJSONString. rewrite !length_app.
      cbn [length]. lia. }
    intros fuel ws rest _ Hws Hfuel.
    unfold members_size in Hfuel. cbn [map snd] in Hfuel.
    rewrite list_sum_cons in Hfuel.
    destruct fuel as [|fuel]; [lia|].
    destruct (member_text_shape gap k text) as (sp & Hsp & ->).
    assert (Hdef : define_property acc k v = acc ++ [(k, v)])
      by (apply has_key_false_define; assumption).
    destruct texts as [|t texts].
    + destruct props; [|discriminate].
      cbn [join]. cbn [app]. rewrite <- !app_assoc. cbn [app].
      rewrite <- app_assoc.
      rewrite (@parse_members_step fuel acc k sp text (ws ++ 125%N :: rest) v
                 125%N rest Hsp).
      * change (125 =? 44)%N with false. change (125 =? 125)%N with true.
        cbv iota. rewrite Hdef. reflexivity.
      * apply Hread. lia.
      * rewrite (skip_ws_app _ Hws). apply skip_ws_solid. reflexivity.
    + destruct props as [|kv props]; [discriminate|].
      rewrite join_cons. cbn [app]. rewrite <- !app_assoc. cbn [app].
      rewrite <- !app_assoc.
      erewrite (@parse_members_step fuel acc k sp text _ v 44%N _ Hsp);
        [ | apply Hread; lia | apply skip_ws_solid; reflexivity ].
      change (44 =? 44)%N with true. cbv iota. rewrite Hdef.
      rewrite parse_members_skip by (apply all_ws_lead; exact Hindent).
      rewrite Hparse; [|discriminate|exact Hws|unfold members_size; lia].
      rewrite <- app_assoc. reflexivity.
Qed.

Lemma length_join (sep : jsstring) (ps : list jsstring) :
  list_sum (map (@length N) ps) <= length (join sep ps).
Proof.
  induction ps as [|p ps IH]; [simpl; lia|].
  destruct ps as [|q ps]; [simpl; lia|].
  rewrite join_cons, !length_app. cbn [map] in *.
  rewrite !list_sum_cons in *. lia.
Qed.

Lemma length_bracket (o c : N) (gap indent stepback : jsstring)
    (ps : list jsstring) :
  2 + list_sum (map (@length N) ps)
  <= length (bracket o c gap indent stepback ps).
Proof.
  destruct ps as [|p ps]; [simpl; lia|].
  rewrite bracket_shape, !length_app.
  pose proof (length_join (44%N :: lead gap indent) (p :: ps)).
  change (length [o]) with 1. change (length [c]) with 1. lia.
Qed.

Lemma join_head (sep : jsstring) (c : N) (p : jsstring) (ps : list jsstring) :
  exists tail, join sep ((c :: p) :: ps) = c :: tail.
Proof. destruct ps; simpl; eauto. Qed.

Lemma plain_object (props : list (jsstring * value)) :
  plain (VObject props) = true ->
  ordinary_keys [] props = true
  /\ Forall (fun kv => plain (snd kv) = true) props.
Proof.
  cbn [plain]. intros H. apply andb_true_iff in H. destruct H as [H1 H2].
  split; [exact H1|].
  apply Forall_forall. intros kv Hin.
  rewrite forallb_forall in H2. apply H2, Hin.
Qed.

(** Every plain value is written, and read back as itself. *)
Lemma plain_reads_back (v : value) : plain v = true -> reads_back v.
Proof.
  induction v as [| |b|n|s|elems _|props IH] using value_ind;
    try discriminate; intros Hplain.
  - apply reads_back_null.
  - apply reads_back_string.
  - apply plain_object in Hplain. destruct Hplain as [Hkeys Hvals].
    assert (Hall : Forall (fun kv => reads_back (snd kv)) props).
    { rewrite Forall_forall in *. intros kv Hin. apply IH; auto. }
    intros gap indent Hgap Hindent.
    assert (Hin' : all_ws (indent ++ gap)) by (apply all_ws_app; assumption).
    destruct (members_read_back Hgap Hin' Hall [] Hkeys)
      as (texts & Htexts & Hlen & Hsize & Hparse).
    cbn [SerializeJSONProperty]. rewrite Htexts.
    eexists. split; [reflexivity|].
    split.
    { cbn [size]. fold (members_size props).
      pose proof (length_bracket 123 125 gap (indent ++ gap) indent texts).
      lia. }
    intros fuel rest Hfuel. cbn [size] in Hfuel.
    fold (members_size props) in Hfuel.
    destruct fuel as [|fuel]; [lia|].
    destruct props as [|[k v] props].
    + destruct texts; [|discriminate]. reflexivity.
    + destruct texts as [|t texts]; [discriminate|].
      assert (Ht : exists t', t = 34%N :: t').
      { inversion Hall as [|? ? Hv _]; subst.
        destruct (Hv gap (indent ++ gap) Hgap Hin') as (text & Hser & _).
        cbn [object_partial snd] in Htexts, Hser. rewrite Hser in Htexts.
        injection Htexts as <- _.
        unfold member_text, QuoteJSONString. simpl. eauto. }
      destruct Ht as (t' & ->).
      rewrite bracket_shape. rewrite <- !app_assoc.
      cbn [app parse_value]. rewrite skip_ws_solid by reflexivity.
      change (123 =? 123)%N with true. cbv iota.
      destruct (join_head (44%N :: lead gap (indent ++ gap)) 34%N t' texts)
        as (tail & Hjoin).
      rewrite (skip_ws_app _ (all_ws_lead gap Hin')).
      unfold jsstring in *.
      rewrite Hjoin at 1. cbn [app]. rewrite skip_ws_solid by reflexivity.
      change (34 =? 125)%N with false. cbv iota.
      rewrite parse_members_skip by (apply all_ws_lead; exact Hin').
      apply (Hparse fuel (lead gap indent) rest).
      * discriminate.
      * apply all_ws_lead; exact Hindent.
      * lia.
Qed.

(** [JSON.parse(JSON.stringify(v, null, space))] is [v] for a plain
    value, whatever the indentation. *)
Lemma parse_stringify (v : value) (space : nat) :
  plain v = true ->
  exists text,
    JSON_stringify v space = Some text /\ JSON_parse text = Some v.
Proof.
  intros Hplain. unfold JSON_stringify.
  destruct (plain_reads_back v Hplain (all_ws_spaces (Nat.min space 10))
              (Forall_nil _)) as (text & Hser & Hbig & Hread).
  exists text. split; [exact Hser|].
  unfold JSON_parse.
  rewrite <- (app_nil_r text) at 2.
  rewrite Hread by lia. reflexivity.
Qed.

End RoundTrip.

(* ================================================================== *)
(** ** The text written to the file has no lone surrogate *)
(* ================================================================== *)

Section WellFormed.

Context {E : Engine}.

Lemma well_formed_app (a b : jsstring) :
  well_formed a = true -> well_formed b = true -> well_formed (a ++ b) = true.
Proof.
  remember (length a) as n eqn:Hn.
  assert (Hle : length a <= n) by lia. clear Hn.
  revert a Hle. induction n as [|n IH]; intros a Hle Ha Hb.
  - destruct a; [exact Hb | simpl in Hle; lia].
  - destruct a as [|c a]; [exact Hb|]. simpl in Hle.
    cbn [app well_formed] in *.
    destruct (is_high_surrogate c).
    + destruct a as [|d a]; [discriminate|].
      cbn [app]. apply andb_true_iff in Ha. destruct Ha as [Hd Ha].
      rewrite Hd. apply IH; [simpl in Hle; lia | exact Ha | exact Hb].
    + apply andb_true_iff in Ha. destruct Ha as [Hc Ha].
      rewrite Hc. apply IH; [lia | exact Ha | exact Hb].
Qed.

(** A string of code units below the surrogate range is well formed. *)
Lemma well_formed_low (s : jsstring) :
  Forall (fun c => (c < 55296)%N) s -> well_formed s = true.
Proof.
  induction 1 as [|c s Hc _ IH]; [reflexivity|].
  cbn [well_formed]. unfold is_high_surrogate, is_low_surrogate.
  replace (55296 <=? c)%N with false by (symmetry; apply N.leb_gt; exact Hc).
  replace (56320 <=? c)%N with false by (symmetry; apply N.leb_gt; lia).
  exact IH.
Qed.

Lemma hex_digit_low (d : N) : (d < 16)%N -> (hex_digit d < 55296)%N.
Proof. intros H. unfold hex_digit. destruct (d <? 10)%N; lia. Qed.

Lemma well_formed_unicode_escape (c : N) : well_formed (unicode_escape c) = true.
Proof.
  apply well_formed_low. unfold unicode_escape.
  repeat constructor;
    try (apply hex_digit_low; apply N.mod_lt; discriminate).
Qed.

Lemma well_formed_quote_unit (c : N) :
  is_high_surrogate c = false -> well_formed (quote_unit c) = true.
Proof.
  intros Hh. unfold quote_unit.
  repeat match goal with
         | |- context [(c =? ?k)%N] => destruct (c =? k)%N; [reflexivity|]
         end.
  destruct (c <? 32)%N; [apply well_formed_unicode_escape|].
  rewrite Hh. cbn [orb].
  destruct (is_low_surrogate c) eqn:Hl; [apply well_formed_unicode_escape|].
  cbn [well_formed]. rewrite Hh, Hl. reflexivity.
Qed.

Lemma well_formed_quote_chars (s : jsstring) :
  well_formed (quote_chars s) = true.
Proof.
  remember (length s) as n eqn:Hn.
  assert (Hle : length s <= n) by lia. clear Hn.
  revert s Hle. induction n as [|n IH]; intros s Hle.
  - destruct s; [reflexivity | simpl in Hle; lia].
  - destruct s as [|c r]; [reflexivity|]. simpl in Hle.
    cbn [quote_chars]. destruct (is_high_surrogate c) eqn:Hc.
    + destruct r as [|d r']; [apply well_formed_unicode_escape|].
      destruct (is_low_surrogate d) eqn:Hd.
      * cbn [well_formed]. rewrite Hc, Hd. apply IH. simpl in Hle. lia.
      * apply well_formed_app; [apply well_formed_unicode_escape|].
        apply IH. lia.
    + apply well_formed_app; [apply well_formed_quote_unit, Hc|].
      apply IH. lia.
Qed.

Lemma well_formed_quote (s : jsstring) : well_formed (QuoteJSONString s) = true.
Proof.
  unfold QuoteJSONString.
  apply well_formed_app; [reflexivity|].
  apply well_formed_app; [apply well_formed_quote_chars | reflexivity].
Qed.

Lemma well_formed_ws (s : jsstring) : all_ws s -> well_formed s = true.
Proof.
  intros H. apply well_formed_low.
  eapply Forall_impl; [|exact H]. intros c Hc. cbv beta in Hc.
  unfold is_json_ws in Hc.
  repeat (apply orb_true_iff in Hc; destruct Hc as [Hc|Hc]);
    apply N.eqb_eq in Hc; lia.
Qed.

Lemma well_formed_join (sep : jsstring) (ps : list jsstring) :
  well_formed sep = true ->
  Forall (fun p => well_formed p = true) ps ->
  well_formed (join sep ps) = true.
Proof.
  intros Hsep. induction 1 as [|p ps Hp Hps IH]; [reflexivity|].
  destruct ps as [|q ps]; [exact Hp|].
  rewrite join_cons.
  apply well_formed_app; [exact Hp|].
  apply well_formed_app; [exact Hsep | exact IH].
Qed.

Lemma well_formed_bracket (o c : N) (gap indent stepback : jsstring)
    (ps : list jsstring) :
  (o < 55296)%N -> (c < 55296)%N ->
  all_ws indent -> all_ws stepback ->
  Forall (fun p => well_formed p = true) ps ->
  well_formed (bracket o c gap indent stepback ps) = true.
Proof.
  intros Ho Hc Hi Hs Hps.
  assert (Hopen : well_formed [o] = true)
    by (apply well_formed_low; repeat constructor; exact Ho).
  assert (Hclose : well_formed [c] = true)
    by (apply well_formed_low; repeat constructor; exact Hc).
  destruct ps as [|p ps].
  - apply well_formed_low. repeat constructor; assumption.
  - rewrite bracket_shape.
    apply well_formed_app; [exact Hopen|].
    apply well_formed_app; [apply well_formed_ws, all_ws_lead, Hi|].
    apply well_formed_app.
    + apply well_formed_join; [|exact Hps].
      apply (well_formed_app [44%N]); [reflexivity|].
      apply well_formed_ws, all_ws_lead, Hi.
    + apply well_formed_app; [apply well_formed_ws, all_ws_lead, Hs|].
      exact Hclose.
Qed.

Lemma well_formed_member (gap k text : jsstring) :
  well_formed text = true -> well_formed (member_text gap k text) = true.
Proof.
  intros H. unfold member_text.
  apply well_formed_app; [apply well_formed_quote|].
  apply (well_formed_app [58%N]); [reflexivity|].
  apply well_formed_app; [destruct gap; reflexivity | exact H].
Qed.

(** Whatever [JSON.stringify] returns for a value without numbers is
    free of lone surrogates. *)
Lemma well_formed_serialized (v : value) :
  plain v = true ->
  forall gap indent text,
    all_ws gap -> all_ws indent ->
    SerializeJSONProperty gap indent v = Some text ->
    well_formed text = true.
Proof.
  induction v as [| |b|n|s|elems _|props IH] using value_ind;
    try discriminate; intros Hplain gap indent text Hgap Hindent Hser.
  - injection Hser as <-. reflexivity.
  - injection Hser as <-. apply well_formed_quote.
  - apply plain_object in Hplain. destruct Hplain as [_ Hvals].
    cbn [SerializeJSONProperty] in Hser. injection Hser as <-.
    assert (Hin : all_ws (indent ++ gap)) by (apply all_ws_app; assumption).
    apply well_formed_bracket; try lia; try assumption.
    clear - IH Hvals Hgap Hin.
    induction props as [|[k v] props IHp]; [constructor|].
    inversion IH as [|? ? Hv IH']; subst.
    inversion Hvals as [|? ? Hp Hvals']; subst.
    cbn [object_partial snd] in *.
    destruct (SerializeJSONProperty gap (indent ++ gap) v) as [text|] eqn:Hs.
    + constructor; [|apply IHp; assumption].
      apply well_formed_member.
      exact (Hv Hp gap (indent ++ gap) text Hgap Hin Hs).
    + apply IHp; assumption.
Qed.

End WellFormed.

(* ================================================================== *)
(** ** The parser never runs out of fuel *)
(* ================================================================== *)

Section Fuel.

Context {E : Engine}.

Lemma skip_ws_length (s : jsstring) : length (skip_ws s) <= length s.
Proof.
  induction s as [|c s IH]; [apply Nat.le_refl|].
  simpl. destruct (is_json_ws c); simpl; lia.
Qed.

Lemma skip_ws_cons_length (s : jsstring) (c : N) (r : jsstring) :
  skip_ws s = c :: r -> length r < length s.
Proof.
  intros H. pose proof (skip_ws_length s) as Hl. rewrite H in Hl.
  simpl in Hl. lia.
Qed.

Lemma parse_string_chars_length (s t r : jsstring) :
  parse_string_chars s = Some (t, r) -> length r < length s.
Proof.
  remember (length s) as n eqn:Hn.
  assert (Hle : length s <= n) by lia. clear Hn.
  revert s t r Hle. induction n as [|n IH]; intros s t r Hle H.
  - destruct s; [discriminate | simpl in Hle; lia].
  - destruct s as [|c s]; [discriminate|]. cbn [parse_string_chars] in H.
    simpl in Hle.
    destruct (c =? 34)%N; [injection H as _ <-; simpl; lia|].
    destruct (c =? 92)%N.
    + destruct s as [|e r1]; [discriminate|].
      destruct (e =? 117)%N.
      * destruct r1 as [|h1 [|h2 [|h3 [|h4 r2]]]]; try discriminate.
        destruct (hex4 h1 h2 h3 h4); [|discriminate].
        destruct (parse_string_chars r2) as [[t' r']|] eqn:Hr; [|discriminate].
        injection H as _ <-. apply IH in Hr; simpl in *; lia.
      * destruct (simple_escape e); [|discriminate].
        destruct (parse_string_chars r1) as [[t' r']|] eqn:Hr; [|discriminate].
        injection H as _ <-. apply IH in Hr; simpl in *; lia.
    + destruct (c <? 32)%N; [discriminate|].
      destruct (parse_string_chars s) as [[t' r']|] eqn:Hr; [|discriminate].
      injection H as _ <-. apply IH in Hr; simpl in *; lia.
Qed.

Lemma strip_prefix_length (p s r : jsstring) :
  strip_prefix p s = Some r -> length r + length p = length s.
Proof.
  revert s; induction p as [|x p IH]; intros s H.
  - injection H as <-. simpl. lia.
  - destruct s as [|y s]; [discriminate|]. simpl in H.
    destruct (x =? y)%N; [|discriminate]. apply IH in H. simpl. lia.
Qed.

Lemma span_digits_length (s ds r : jsstring) :
  span_digits s = (ds, r) -> length r <= length s.
Proof.
  revert ds r; induction s as [|c s IH]; intros ds r H.
  - injection H as _ <-. apply Nat.le_refl.
  - simpl in H. destruct (is_digit c).
    + destruct (span_digits s) as [ds' r'] eqn:Hs.
      injection H as _ <-. specialize (IH _ _ eq_refl). simpl. lia.
    + injection H as _ <-. apply Nat.le_refl.
Qed.

Lemma scan_int_length (s l r : jsstring) :
  scan_int s = Some (l, r) -> length r < length s.
Proof.
  destruct s as [|c s]; [discriminate|]. unfold scan_int.
  destruct (c =? 48)%N; [intros H; injection H as _ <-; simpl; lia|].
  destruct (is_digit c); [|discriminate].
  destruct (span_digits s) as [ds r'] eqn:Hs.
  intros H; injection H as _ <-.
  apply span_digits_length in Hs. simpl. lia.
Qed.

Lemma scan_frac_length (s l r : jsstring) :
  scan_frac s = Some (l, r) -> length r <= length s.
Proof.
  destruct s as [|c s]; unfold scan_frac.
  - intros H; injection H as _ <-. apply Nat.le_refl.
  - destruct (c =? 46)%N.
    + destruct (span_digits s) as [[|d ds] r'] eqn:Hs; [discriminate|].
      intros H; injection H as _ <-.
      apply span_digits_length in Hs. simpl. lia.
    + intros H; injection H as _ <-. apply Nat.le_refl.
Qed.

Lemma scan_exp_length (s l r : jsstring) :
  scan_exp s = Some (l, r) -> length r <= length s.
Proof.
  destruct s as [|c s]; unfold scan_exp.
  - intros H; injection H as _ <-. apply Nat.le_refl.
  - destruct ((c =? 101)%N || (c =? 69)%N).
    + assert (Hs : length
                (snd match s with
                     | g :: r' =>
                         if (g =? 43)%N || (g =? 45)%N then ([g], r')
                         else ([], s)
                     | [] => ([], s)
                     end) <= length s).
      { destruct s as [|g r']; [simpl; lia|].
        destruct ((g =? 43)%N || (g =? 45)%N); simpl; lia. }
      destruct (match s with
                | g :: r' =>
                    if (g =? 43)%N || (g =? 45)%N then ([g], r') else ([], s)
                | [] => ([], s)
                end) as [sign r1].
      cbn [snd] in Hs.
      destruct (span_digits r1) as [[|d ds] r'] eqn:Hd; [discriminate|].
      intros H; injection H as _ <-.
      apply span_digits_length in Hd. simpl. lia.
    + intros H; injection H as _ <-. apply Nat.le_refl.
Qed.

Lemma scan_number_length (s l r : jsstring) :
  scan_number s = Some (l, r) -> length r < length s.
Proof.
  unfold scan_number.
  assert (Hs : length
            (snd match s with
                 | c :: r' => if (c =? 45)%N then ([c], r') else ([], s)
                 | [] => ([], s)
                 end) <= length s).
  { destruct s as [|c r']; [simpl; lia|].
    destruct (c =? 45)%N; simpl; lia. }
  destruct (match s with
            | c :: r' => if (c =? 45)%N then ([c], r') else ([], s)
            | [] => ([], s)
            end) as [sign s1].
  cbn [snd] in Hs.
  destruct (scan_int s1) as [[ip s2]|] eqn:Hi; [|discriminate].
  destruct (scan_frac s2) as [[fp s3]|] eqn:Hf; [|discriminate].
  destruct (scan_exp s3) as [[ep s4]|] eqn:He; [|discriminate].
  intros H; injection H as _ <-.
  apply scan_int_length in Hi. apply scan_frac_length in Hf.
  apply scan_exp_length in He. lia.
Qed.

(** Whatever is parsed, at least one character is consumed. *)
Lemma parse_consumes (fuel : nat) :
  (forall s v r, parse_value fuel s = Some (v, r) -> length r < length s)
  /\ (forall acc s v r,
        parse_members fuel acc s = Some (v, r) -> length r < length s)
  /\ (forall acc s v r,
        parse_elements fuel acc s = Some (v, r) -> length r < length s).
Proof.
  induction fuel as [|f (IHv & IHm & IHe)]; [repeat split; discriminate|].
  repeat split.
  - intros s v r H. cbn [parse_value] in H.
    destruct (skip_ws s) as [|c r0] eqn:Hs; [discriminate|].
    apply skip_ws_cons_length in Hs.
    destruct (c =? 123)%N.
    { destruct (skip_ws r0) as [|c' r'] eqn:Hs'; [discriminate|].
      apply skip_ws_cons_length in Hs'.
      destruct (c' =? 125)%N; [injection H as _ <-; lia|].
      apply IHm in H. lia. }
    destruct (c =? 91)%N.
    { destruct (skip_ws r0) as [|c' r'] eqn:Hs'; [discriminate|].
      apply skip_ws_cons_length in Hs'.
      destruct (c' =? 93)%N; [injection H as _ <-; lia|].
      apply IHe in H. lia. }
    destruct (c =? 34)%N.
    { destruct (parse_string_chars r0) as [[str rest]|] eqn:Hp; [|discriminate].
      injection H as _ <-. apply parse_string_chars_length in Hp. lia. }
    destruct (c =? 110)%N.
    { destruct (strip_prefix (lit "null") (c :: r0)) as [rest|] eqn:Hp;
        [|discriminate].
      injection H as _ <-. apply strip_prefix_length in Hp. simpl in Hp. lia. }
    destruct (c =? 116)%N.
    { destruct (strip_prefix (lit "true") (c :: r0)) as [rest|] eqn:Hp;
        [|discriminate].
      injection H as _ <-. apply strip_prefix_length in Hp. simpl in Hp. lia. }
    destruct (c =? 102)%N.
    { destruct (strip_prefix (lit "false") (c :: r0)) as [rest|] eqn:Hp;
        [|discriminate].
      injection H as _ <-. apply strip_prefix_length in Hp. simpl in Hp. lia. }
    destruct (scan_number (c :: r0)) as [[literal rest]|] eqn:Hp; [|discriminate].
    injection H as _ <-. apply scan_number_length in Hp. simpl in Hp. lia.
  - intros acc s v r H. cbn [parse_members] in H.
    destruct (skip_ws s) as [|c r0] eqn:Hs; [discriminate|].
    apply skip_ws_cons_length in Hs.
    destruct (c =? 34)%N; [|discriminate].
    destruct (parse_string_chars r0) as [[k r1]|] eqn:Hk; [|discriminate].
    apply parse_string_chars_length in Hk.
    destruct (skip_ws r1) as [|c1 r2] eqn:Hs1; [discriminate|].
    apply skip_ws_cons_length in Hs1.
    destruct (c1 =? 58)%N; [|discriminate].
    destruct (parse_value f r2) as [[v' r3]|] eqn:Hv; [|discriminate].
    apply IHv in Hv.
    destruct (skip_ws r3) as [|c3 r4] eqn:Hs3; [discriminate|].
    apply skip_ws_cons_length in Hs3.
    destruct (c3 =? 44)%N; [apply IHm in H; lia|].
    destruct (c3 =? 125)%N; [|discriminate].
    injection H as _ <-. lia.
  - intros acc s v r H. cbn [parse_elements] in H.
    destruct (parse_value f s) as [[v' r1]|] eqn:Hv; [|discriminate].
    apply IHv in Hv.
    destruct (skip_ws r1) as [|c r2] eqn:Hs1; [discriminate|].
    apply skip_ws_cons_length in Hs1.
    destruct (c =? 44)%N; [apply IHe in H; lia|].
    destruct (c =? 93)%N; [|discriminate].
    injection H as _ <-. lia.
Qed.

(** Two amounts of fuel above twice the length of the text give the
    same result: the fuel of [JSON_parse] is never the reason for a
    failure. *)
Lemma parse_fuel (f1 : nat) :
  (forall f2 s, 2 * length s < f1 -> 2 * length s < f2 ->
                parse_value f1 s = parse_value f2 s)
  /\ (forall f2 acc s, 2 * length s + 1 < f1 -> 2 * length s + 1 < f2 ->
                       parse_members f1 acc s = parse_members f2 acc s)
  /\ (forall f2 acc s, 2 * length s + 1 < f1 -> 2 * length s + 1 < f2 ->
                       parse_elements f1 acc s = parse_elements f2 acc s).
Proof.
  induction f1 as [|f (IHv & IHm & IHe)]; [repeat split; intros; lia|].
  repeat split.
  - intros [|f2] s H1 H2; [lia|]. cbn [parse_value].
    destruct (skip_ws s) as [|c r0] eqn:Hs; [reflexivity|].
    apply skip_ws_cons_length in Hs.
    destruct (c =? 123)%N.
    { destruct (skip_ws r0) as [|c' r']; [reflexivity|].
      destruct (c' =? 125)%N; [reflexivity|]. apply IHm; lia. }
    destruct (c =? 91)%N.
    { destruct (skip_ws r0) as [|c' r']; [reflexivity|].
      destruct (c' =? 93)%N; [reflexivity|]. apply IHe; lia. }
    reflexivity.
  - intros [|f2] acc s H1 H2; [lia|]. cbn [parse_members].
    destruct (skip_ws s) as [|c r0] eqn:Hs; [reflexivity|].
    apply skip_ws_cons_length in Hs.
    destruct (c =? 34)%N; [|reflexivity].
    destruct (parse_string_chars r0) as [[k r1]|] eqn:Hk; [|reflexivity].
    apply parse_string_chars_length in Hk.
    destruct (skip_ws r1) as [|c1 r2] eqn:Hs1; [reflexivity|].
    apply skip_ws_cons_length in Hs1.
    destruct (c1 =? 58)%N; [|reflexivity].
    rewrite (IHv f2 r2) by lia.
    destruct (parse_value f2 r2) as [[v' r3]|] eqn:Hv; [|reflexivity].
    apply (proj1 (parse_consumes f2)) in Hv.
    destruct (skip_ws r3) as [|c3 r4] eqn:Hs3; [reflexivity|].
    apply skip_ws_cons_length in Hs3.
    destruct (c3 =? 44)%N; [|reflexivity]. apply IHm; lia.
  - intros [|f2] acc s H1 H2; [lia|]. cbn [parse_elements].
    rewrite (IHv f2 s) by lia.
    destruct (parse_value f2 s) as [[v' r1]|] eqn:Hv; [|reflexivity].
    apply (proj1 (parse_consumes f2)) in Hv.
    destruct (skip_ws r1) as [|c r2] eqn:Hs1; [reflexivity|].
    apply skip_ws_cons_length in Hs1.
    destruct (c =? 44)%N; [|reflexivity]. apply IHe; lia.
Qed.

Lemma parse_value_fuel (fuel : nat) (text : jsstring) :
  2 * length text < fuel ->
  parse_value fuel text = parse_value (S (2 * length text)) text.
Proof. intros H. apply (proj1 (parse_fuel fuel)); lia. Qed.

End Fuel.

(* ================================================================== *)
(** ** The run *)
(* ================================================================== *)

Unset Implicit Arguments.

Section Run.

Context {E : Engine}.

Lemma load_previous_loaded (w : world) (previous : value) :
  loaded w previous ->
  load_previous w [] = ([ConsoleLog (load_message w)], inl previous).
Proof.
  unfold loaded, load_previous, load_message.
  destruct (stored w) as [text|].
  - intros ->. reflexivity.
  - intros ->. reflexivity.
Qed.

Lemma scrape_ok (w : world) (t : list event) :
  browser_ok w ->
  scrape w t =
  lift (parse_rows (lines_of (innerText w))) (t ++ [BrowserLaunched]).
Proof.
  intros H. unfold scrape, await, bind.
  rewrite !H. reflexivity.
Qed.

(** A run whose loader and browser calls succeed reaches the parser. *)
Lemma main_parsed (w : world) (previous : value) (rows : list row) :
  loaded w previous -> browser_ok w ->
  parse_rows (lines_of (innerText w)) = Ok rows ->
  main w [] = finish_run w previous rows (preamble w).
Proof.
  intros Hl Hb Hp. unfold main, bind at 1.
  rewrite (load_previous_loaded _ _ Hl).
  unfold bind at 1. rewrite (scrape_ok _ _ Hb), Hp. reflexivity.
Qed.

Lemma main_parse_throws (w : world) (previous : value) (e : error) :
  loaded w previous -> browser_ok w ->
  parse_rows (lines_of (innerText w)) = Throw e ->
  run w = (preamble w, Rejected e).
Proof.
  intros Hl Hb Hp. unfold run, main, bind at 1.
  rewrite (load_previous_loaded _ _ Hl).
  unfold bind at 1. rewrite (scrape_ok _ _ Hb), Hp. reflexivity.
Qed.

(** An object is always written as text. *)
Lemma stringify_metrics (m : metrics) (space : nat) :
  exists text, JSON_stringify (metrics_value m) space = Some text.
Proof. unfold JSON_stringify, metrics_value. cbn [SerializeJSONProperty]. eauto. Qed.

Lemma finish_run_no_rows (w : world) (previous : value) (t : list event) :
  finish_run w previous [] t
  = (t ++ [ConsoleError NoRowsFound; BrowserClosed], inr (Exited 1)).
Proof.
  unfold finish_run, bind, emit, finish. simpl.
  rewrite <- app_assoc. reflexivity.
Qed.

Lemma finish_run_unchanged (w : world) (previous : value) (rows : list row)
    (t : list event) :
  rows <> [] ->
  unchanged previous (build_metrics (now w) rows) = true ->
  finish_run w previous rows t
  = (t ++ warning rows ++ [ConsoleLog NoChangesSkippingWrite; BrowserClosed],
     inr Returned).
Proof.
  intros Hne Hu. unfold finish_run, warning.
  replace (Nat.eqb (length rows) 0) with false
    by (destruct rows; [contradiction | reflexivity]).
  unfold bind at 1.
  destruct (Nat.eqb (length rows) 4); cbn [negb];
    unfold ret, emit, bind, finish; rewrite Hu;
    rewrite <- ?app_assoc; reflexivity.
Qed.

Lemma finish_run_changed (w : world) (previous : value) (rows : list row)
    (t : list event) (text : jsstring) :
  rows <> [] ->
  unchanged previous (build_metrics (now w) rows) = false ->
  JSON_stringify (metrics_value (build_metrics (now w) rows)) 2 = Some text ->
  finish_run w previous rows t
  = (t ++ warning rows
       ++ [ConsoleLog ChangesWritingFile; FileWritten text;
           ConsoleLog WrittenTo; BrowserClosed; ConsoleLog ScrapeCompleted],
     inl tt).
Proof.
  intros Hne Hu Htext. unfold finish_run, warning.
  replace (Nat.eqb (length rows) 0) with false
    by (destruct rows; [contradiction | reflexivity]).
  unfold bind at 1.
  destruct (Nat.eqb (length rows) 4); cbn [negb];
    unfold ret, emit, bind, finish; rewrite Hu, Htext;
    unfold writeFileSync, emit;
    rewrite <- ?app_assoc; reflexivity.
Qed.

Lemma writes_app (a b : list event) : writes (a ++ b) = writes a ++ writes b.
Proof. unfold writes. apply flat_map_app. Qed.

Lemma writes_preamble (w : world) : writes (preamble w) = [].
Proof. reflexivity. Qed.

Lemma writes_warning (rows : list row) : writes (warning rows) = [].
Proof. unfold warning. destruct (Nat.eqb (length rows) 4); reflexivity. Qed.

(** What a run does once rows were parsed: it warns when their number is
    not four, and writes the new snapshot unless [unchanged] holds. *)
Lemma run_parsed (w : world) (previous : value) (rows : list row) :
  loaded w previous -> browser_ok w ->
  parse_rows (lines_of (innerText w)) = Ok rows ->
  rows <> [] ->
  exists text tail,
    JSON_stringify (metrics_value (build_metrics (now w) rows)) 2 = Some text
    /\ run w = (preamble w ++ warning rows ++ tail, Returned)
    /\ tail =
       (if unchanged previous (build_metrics (now w) rows)
        then [ConsoleLog NoChangesSkippingWrite; BrowserClosed]
        else [ConsoleLog ChangesWritingFile; FileWritten text;
              ConsoleLog WrittenTo; BrowserClosed; ConsoleLog ScrapeCompleted]).
Proof.
  intros Hl Hb Hp Hne.
  destruct (stringify_metrics (build_metrics (now w) rows) 2) as (text & Ht).
  exists text. eexists. split; [exact Ht|]. split; [|reflexivity].
  unfold run. rewrite (main_parsed w previous rows Hl Hb Hp).
  destruct (unchanged previous (build_metrics (now w) rows)) eqn:Hu.
  - rewrite (finish_run_unchanged w previous rows _ Hne Hu). reflexivity.
  - rewrite (finish_run_changed w previous rows _ text Hne Hu Ht). reflexivity.
Qed.

Lemma run_no_rows (w : world) (previous : value) :
  loaded w previous -> browser_ok w ->
  parse_rows (lines_of (innerText w)) = Ok [] ->
  run w = (preamble w ++ [ConsoleError NoRowsFound; BrowserClosed], Exited 1).
Proof.
  intros Hl Hb Hp. unfold run.
  rewrite (main_parsed w previous [] Hl Hb Hp), finish_run_no_rows. reflexivity.
Qed.

(** *** Snapshots the script builds are plain values *)

Lemma make_row_defined (block : list jsstring) (r : row) :
  make_row block = Ok r -> row_defined r = true.
Proof.
  intros H. unfold row_defined.
  destruct (Nat.lt_ge_cases (length block) 10) as [Hl|Hl].
  - rewrite (make_row_short _ Hl) in H. discriminate.
  - apply make_row_fields in H. destruct H as (-> & _).
    destruct (nth_error block 1) eqn:Hn; [reflexivity|].
    apply nth_error_None in Hn. lia.
Qed.

Lemma scan_defined (rest : list jsstring) (acc rows : list row) :
  scan rest acc = Ok rows ->
  Forall (fun r => row_defined r = true) acc ->
  Forall (fun r => row_defined r = true) rows.
Proof.
  revert acc; induction rest as [|l rest IH]; intros acc H Hacc.
  - injection H as <-. exact Hacc.
  - rewrite scan_cons in H. destruct (is_marker l); [|eauto].
    destruct (make_row (firstn 11 (l :: rest))) as [r|] eqn:Hmk; [|discriminate].
    apply (IH _ H). apply Forall_app. split; [exact Hacc|].
    constructor; [|constructor]. apply (make_row_defined _ _ Hmk).
Qed.

Lemma or_null_defined (rows : list row) (k : nat) :
  Forall (fun r => row_defined r = true) rows ->
  slot_defined (or_null rows k) = true.
Proof.
  intros H. unfold or_null, slot_defined.
  destruct (nth_error rows k) as [r|] eqn:Hn; [|reflexivity].
  rewrite Forall_forall in H. apply H. eapply nth_error_In, Hn.
Qed.

(** Every snapshot built from parsed rows has its week identifiers. *)
Lemma built_snapshot_defined (lines : list jsstring) (rows : list row)
    (now_ : jsstring) :
  parse_rows lines = Ok rows ->
  snapshot_defined (build_metrics now_ rows) = true.
Proof.
  intros H. rewrite parse_rows_scan in H.
  apply scan_defined in H; [|constructor].
  unfold snapshot_defined, build_metrics. cbn.
  rewrite !or_null_defined by exact H. reflexivity.
Qed.

Lemma plain_slot (x : option row) :
  slot_defined x = true -> plain (slot_value x) = true.
Proof.
  destruct x as [r|]; [|reflexivity].
  unfold slot_defined, row_defined, slot_value, row_value, string_or_undefined.
  destruct (sheepweekindex r); [|discriminate]. intros _. reflexivity.
Qed.

Lemma plain_metrics (m : metrics) :
  snapshot_defined m = true -> plain (metrics_value m) = true.
Proof.
  unfold snapshot_defined. intros H.
  apply andb_true_iff in H. destruct H as [H H4].
  apply andb_true_iff in H. destruct H as [H H3].
  apply andb_true_iff in H. destruct H as [H1 H2].
  unfold metrics_value. cbn [plain].
  apply andb_true_iff. split; [reflexivity|].
  cbn [forallb snd].
  rewrite !plain_slot by assumption. reflexivity.
Qed.

Lemma row_value_inj (r1 r2 : row) : row_value r1 = row_value r2 -> r1 = r2.
Proof.
  destruct r1 as [w1 ? ? ? ? ? ? ? ?], r2 as [w2 ? ? ? ? ? ? ? ?].
  unfold row_value; cbn. intros H. injection H as Hw -> -> -> -> -> -> -> ->.
  f_equal. destruct w1, w2; cbn in Hw; congruence.
Qed.

Lemma slot_value_inj (x y : option row) : slot_value x = slot_value y -> x = y.
Proof.
  destruct x as [r1|], y as [r2|]; cbn; intros H;
    try reflexivity; try discriminate.
  f_equal. apply row_value_inj, H.
Qed.

Lemma metrics_value_inj (m1 m2 : metrics) :
  metrics_value m1 = metrics_value m2 -> m1 = m2.
Proof.
  destruct m1, m2. unfold metrics_value; cbn. intros H.
  injection H as -> H1 H2 H3 H4.
  apply slot_value_inj in H1, H2, H3, H4. congruence.
Qed.

(** The change detector compares the whole snapshot, time stamp
    included: against a stored plain value it answers [true] exactly
    when that value is the new snapshot. *)
Lemma unchanged_iff (previous : value) (m : metrics) :
  plain previous = true -> snapshot_defined m = true ->
  unchanged previous m = true <-> previous = metrics_value m.
Proof.
  intros Hp Hm. apply plain_metrics in Hm.
  destruct (parse_stringify previous 0 Hp) as (t1 & Hs1 & Hr1).
  destruct (parse_stringify (metrics_value m) 0 Hm) as (t2 & Hs2 & Hr2).
  unfold unchanged. rewrite Hs1, Hs2. cbn [text_eqb].
  split.
  - intros H. apply andb_true_iff in H. destruct H as [_ H].
    apply str_eqb_eq in H. subst t2. congruence.
  - intros ->. assert (t1 = t2) by congruence. subst t2.
    rewrite str_eqb_refl. reflexivity.
Qed.

End Run.

(* ================================================================== *)
(** ** Properties of the row parser *)
(* ================================================================== *)

Lemma nth_error_block (lines : list jsstring) (i k : nat) :
  k < 11 -> nth_error (firstn 11 (skipn i lines)) k = nth_error lines (i + k).
Proof.
  intros Hk. rewrite nth_error_firstn.
  destruct (Nat.ltb_spec k 11); [|lia]. apply nth_error_skipn.
Qed.

(** C2.  Field stripping: for every block the parser turns into a row,
    the line at offset 1 is stored verbatim as the week identifier and
    each line at offsets 2 to 9 is stored with every character that is
    not an ASCII digit or a minus sign removed; the three sample cells
    strip to 1234, -5 and 1105. *)
Theorem C2_field_stripping (lines : list jsstring) (rows : list row) (i : nat) :
  parse_rows lines = Ok rows ->
  nth_error lines i = Some marker ->
  (exists r,
     nth_error rows (selectRowCount (firstn i lines)) = Some r
     /\ sheepweekindex r = nth_error lines (i + 1)
     /\ Some (total_head_inc_reoffers r)
        = option_map keep_digits_and_minus (nth_error lines (i + 2))
     /\ Some (clearance_rate_mm r)
        = option_map keep_digits_and_minus (nth_error lines (i + 3))
     /\ Some (amount_over_reserve r)
        = option_map keep_digits_and_minus (nth_error lines (i + 4))
     /\ Some (arli_ckg_dw r)
        = option_map keep_digits_and_minus (nth_error lines (i + 5))
     /\ Some (arl_change_sheepindex r)
        = option_map keep_digits_and_minus (nth_error lines (i + 6))
     /\ Some (total_head_change_sheepindex r)
        = option_map keep_digits_and_minus (nth_error lines (i + 7))
     /\ Some (clearance_rate_change_sheepindex r)
        = option_map keep_digits_and_minus (nth_error lines (i + 8))
     /\ Some (vor_change_sheepindex r)
        = option_map keep_digits_and_minus (nth_error lines (i + 9)))
  /\ strip (lit "1,234 head") = lit "1234"
  /\ strip (lit "-5%") = lit "-5"
  /\ strip (lit "110.5") = lit "1105".
Proof.
  intros Hparse Hi. split; [|repeat split].
  rewrite parse_rows_scan in Hparse.
  destruct (scan_nth _ _ _ Hparse Hi) as (r & Hr & Hmk).
  exists r. split; [exact Hr|].
  apply make_row_fields in Hmk.
  rewrite !nth_error_block in Hmk by lia. exact Hmk.
Qed.

(** C3.  A text whose lines are four well-formed eleven-line blocks,
    with marker-free lines before, between and after them, parses to
    exactly four rows, the row of each block in the order of the blocks,
    and the metrics builder puts them in [this_week], [last_week],
    [two_weeks_ago], [three_weeks_ago] in that order. *)
Theorem C3_four_blocks_in_order (text now_ : jsstring)
    (f0 b1 f1 b2 f2 b3 f3 b4 f4 : list jsstring) :
  lines_of text = f0 ++ b1 ++ f1 ++ b2 ++ f2 ++ b3 ++ f3 ++ b4 ++ f4 ->
  well_formed_block b1 -> well_formed_block b2 ->
  well_formed_block b3 -> well_formed_block b4 ->
  marker_free f0 -> marker_free f1 -> marker_free f2 ->
  marker_free f3 -> marker_free f4 ->
  exists r1 r2 r3 r4,
    make_row b1 = Ok r1 /\ make_row b2 = Ok r2
    /\ make_row b3 = Ok r3 /\ make_row b4 = Ok r4
    /\ parse_rows (lines_of text) = Ok [r1; r2; r3; r4]
    /\ build_metrics now_ [r1; r2; r3; r4]
       = mkMetrics now_ (Some r1) (Some r2) (Some r3) (Some r4).
Proof.
  intros Hlines B1 B2 B3 B4 F0 F1 F2 F3 F4.
  rewrite Hlines, parse_rows_scan.
  rewrite (scan_marker_free _ _ F0).
  destruct (scan_block (f1 ++ b2 ++ f2 ++ b3 ++ f3 ++ b4 ++ f4) [] B1)
    as (r1 & M1 & ->).
  rewrite (scan_marker_free _ _ F1).
  destruct (scan_block (f2 ++ b3 ++ f3 ++ b4 ++ f4) ([] ++ [r1]) B2)
    as (r2 & M2 & ->).
  rewrite (scan_marker_free _ _ F2).
  destruct (scan_block (f3 ++ b4 ++ f4) (([] ++ [r1]) ++ [r2]) B3)
    as (r3 & M3 & ->).
  rewrite (scan_marker_free _ _ F3).
  destruct (scan_block f4 ((([] ++ [r1]) ++ [r2]) ++ [r3]) B4)
    as (r4 & M4 & ->).
  rewrite <- (app_nil_r f4), (scan_marker_free _ _ F4).
  exists r1, r2, r3, r4. repeat split; assumption.
Qed.

(** C5, as the code has it.  For a marker at position [i] with fewer
    than eleven lines left, the slice is shorter than eleven lines: when
    ten lines are left the row is built and all nine of its fields are
    defined; when fewer are left, reading the first missing field among
    offsets 2 to 9 throws a [TypeError], no row is built and the whole
    parse fails with it. *)
Theorem C5_short_block (lines : list jsstring) (i : nat) :
  nth_error lines i = Some marker ->
  length lines < i + 11 ->
  length (slice lines i (i + 11)) = length lines - i
  /\ (length lines = i + 10 ->
      exists r, make_row (slice lines i (i + 11)) = Ok r
                /\ exists week, sheepweekindex r = Some week)
  /\ (length lines < i + 10 ->
      make_row (slice lines i (i + 11)) = Throw TypeError
      /\ parse_rows lines = Throw TypeError).
Proof.
  intros Hi Hlen.
  assert (Hsl : length (slice lines i (i + 11)) = length lines - i)
    by (rewrite length_slice; lia).
  split; [exact Hsl|]. split.
  - intros Hten.
    destruct (make_row_long (slice lines i (i + 11))) as (r & Hr); [lia|].
    exists r. split; [exact Hr|].
    apply make_row_fields in Hr. destruct Hr as (Hweek & _).
    rewrite Hweek.
    destruct (nth_error (slice lines i (i + 11)) 1) as [week|] eqn:Hn;
      [eauto|].
    apply nth_error_None in Hn. lia.
  - intros Hshort. split.
    + apply make_row_short. lia.
    + rewrite parse_rows_scan. apply (scan_short lines [] i Hi Hshort).
Qed.

(** C10.  When every marker line is followed by at least ten further
    lines, the parser builds one row per marker line: the number of rows
    is the number of markers, overlapping blocks included. *)
Theorem C10_row_per_marker (lines : list jsstring) :
  followed_by 10 lines ->
  exists rows,
    parse_rows lines = Ok rows /\ length rows = selectRowCount lines.
Proof.
  intros H. apply (followed_by_weaken (m := 9)) in H; [|lia].
  rewrite parse_rows_scan.
  destruct (scan_followed [] H) as (rows & Hscan & Hcount).
  exists rows. split; assumption.
Qed.

(* ================================================================== *)
(** ** Properties of a run *)
(* ================================================================== *)

Section RunProperties.

Context {E : Engine}.

(** C4.  When the loader and the browser calls succeed and the text has
    no marker line, the run reports the failure, closes the browser and
    exits with code 1 without writing the file; and whenever rows were
    parsed the run returns, with exit code 0, whether or not it wrote. *)
Theorem C4_exit_codes (w : world) (previous : value) :
  loaded w previous -> browser_ok w ->
  (selectRowCount (lines_of (innerText w)) = 0 ->
     outcome w = Exited 1
     /\ exit_code (outcome w) = Some 1%N
     /\ writes (trace w) = []
     /\ In (ConsoleError NoRowsFound) (trace w))
  /\ (forall rows,
        parse_rows (lines_of (innerText w)) = Ok rows -> rows <> [] ->
        outcome w = Returned /\ exit_code (outcome w) = Some 0%N).
Proof.
  intros Hl Hb. split.
  - intros Hzero.
    assert (Hp : parse_rows (lines_of (innerText w)) = Ok [])
      by (rewrite parse_rows_scan; apply scan_no_marker, Hzero).
    unfold outcome, trace. rewrite (run_no_rows w previous Hl Hb Hp). cbn [fst snd].
    split; [reflexivity|]. split; [reflexivity|]. split.
    + rewrite writes_app, writes_preamble. reflexivity.
    + apply in_or_app. right. left. reflexivity.
  - intros rows Hp Hne.
    destruct (run_parsed w _ rows Hl Hb Hp Hne) as (text & tail & _ & Hrun & _).
    unfold outcome. rewrite Hrun. split; reflexivity.
Qed.

(** C7, as the code has it.  When the number of parsed rows is neither
    zero nor four, the run prints the warning and goes on: the rows at
    positions 0 to 3 fill the four slots in order, a slot past the last
    row is [null], rows from position 4 on are ignored, and the snapshot
    is written unless the change detector finds the stored value equal
    to it, in which case nothing is written. *)
Theorem C7_other_row_counts (w : world) (previous : value) (rows : list row) :
  loaded w previous -> browser_ok w ->
  parse_rows (lines_of (innerText w)) = Ok rows ->
  length rows <> 0 -> length rows <> 4 ->
  In (ConsoleError (ExpectedFourRows (length rows))) (trace w)
  /\ outcome w = Returned
  /\ this_week (build_metrics (now w) rows) = nth_error rows 0
  /\ last_week (build_metrics (now w) rows) = nth_error rows 1
  /\ two_weeks_ago (build_metrics (now w) rows) = nth_error rows 2
  /\ three_weeks_ago (build_metrics (now w) rows) = nth_error rows 3
  /\ build_metrics (now w) rows = build_metrics (now w) (firstn 4 rows)
  /\ exists text,
       JSON_stringify (metrics_value (build_metrics (now w) rows)) 2 = Some text
       /\ writes (trace w)
          = if unchanged previous (build_metrics (now w) rows) then []
            else [text].
Proof.
  intros Hl Hb Hp H0 H4.
  assert (Hne : rows <> []) by (intros ->; apply H0; reflexivity).
  destruct (run_parsed w _ rows Hl Hb Hp Hne) as (text & tail & Ht & Hrun & Htail).
  unfold trace, outcome. rewrite Hrun. cbn [fst snd].
  assert (Hw : warning rows = [ConsoleError (ExpectedFourRows (length rows))]).
  { unfold warning. apply Nat.eqb_neq in H4. rewrite H4. reflexivity. }
  split.
  { apply in_or_app. right. apply in_or_app. left. rewrite Hw. left. reflexivity. }
  split; [reflexivity|].
  assert (Hor : forall k, or_null rows k = nth_error rows k)
    by (intros k; unfold or_null; destruct (nth_error rows k); reflexivity).
  unfold build_metrics at 1 2 3 4. cbn [this_week last_week two_weeks_ago three_weeks_ago].
  rewrite !Hor. repeat (split; [reflexivity|]).
  split.
  { unfold build_metrics. rewrite !Hor.
    assert (Hf : forall k, k < 4 -> or_null (firstn 4 rows) k = nth_error rows k).
    { intros k Hk. unfold or_null. rewrite nth_error_firstn.
      destruct (Nat.ltb_spec k 4); [|lia].
      destruct (nth_error rows k); reflexivity. }
    rewrite !Hf by lia. reflexivity. }
  exists text. split; [exact Ht|].
  rewrite !writes_app, writes_preamble, writes_warning, Htail.
  destruct (unchanged previous (build_metrics (now w) rows)); reflexivity.
Qed.

(** C8.  With no snapshot file the run goes on with [null] as the prior
    state; with a file that is not JSON the run ends at once with the
    [SyntaxError], before the browser is launched and with no write. *)
Theorem C8_loader (w : world) :
  (stored w = None ->
     load_previous w [] = ([ConsoleLog NoPreviousFile], inl VNull)
     /\ main w []
        = bind (scrape w) (finish_run w VNull) [ConsoleLog NoPreviousFile])
  /\ (forall text,
        stored w = Some text -> JSON_parse text = None ->
        run w = ([], Rejected SyntaxError)).
Proof.
  split.
  - intros Hs. unfold main, bind at 1, load_previous. rewrite Hs.
    split; reflexivity.
  - intros text Hs Hbad. unfold run, main, bind at 1, load_previous.
    rewrite Hs, Hbad. reflexivity.
Qed.

(** The text a run writes has no lone surrogate, so the file gives it
    back unchanged. *)
Lemma written_text_well_formed (m : metrics) (text : jsstring) :
  snapshot_defined m = true ->
  JSON_stringify (metrics_value m) 2 = Some text ->
  well_formed text = true.
Proof.
  intros Hm Ht. unfold JSON_stringify in Ht.
  eapply well_formed_serialized; [apply plain_metrics, Hm | | | exact Ht].
  - apply all_ws_spaces.
  - constructor.
Qed.

(** C9.  A snapshot written pretty-printed with two spaces and parsed
    again is the snapshot, [updated_at] included: the text has no lone
    surrogate, so the file returns it as written, and a run that finds
    it in the file loads exactly the value of the snapshot. *)
Theorem C9_write_then_load (m : metrics) :
  snapshot_defined m = true ->
  exists text,
    JSON_stringify (metrics_value m) 2 = Some text
    /\ well_formed text = true
    /\ JSON_parse text = Some (metrics_value m)
    /\ forall w, stored w = Some text ->
         load_previous w [] = ([ConsoleLog LoadedPrevious], inl (metrics_value m)).
Proof.
  intros Hm.
  destruct (parse_stringify (metrics_value m) 2 (plain_metrics _ Hm))
    as (text & Hs & Hp).
  exists text. split; [exact Hs|].
  split; [exact (written_text_well_formed m text Hm Hs)|].
  split; [exact Hp|].
  intros w Hw. unfold load_previous. rewrite Hw, Hp. reflexivity.
Qed.

(** The first half of the idempotence contract holds: when the stored
    snapshot is the new one, time stamp included, nothing is written and
    the run ends normally with the browser closed. *)
Lemma same_snapshot_skips_write (w : world) (rows : list row) (text : jsstring) :
  browser_ok w ->
  parse_rows (lines_of (innerText w)) = Ok rows -> rows <> [] ->
  JSON_stringify (metrics_value (build_metrics (now w) rows)) 2 = Some text ->
  stored w = Some text ->
  writes (trace w) = [] /\ outcome w = Returned /\ In BrowserClosed (trace w).
Proof.
  intros Hb Hp Hne Ht Hs.
  pose proof (built_snapshot_defined _ _ (now w) Hp) as Hd.
  destruct (parse_stringify _ 2 (plain_metrics _ Hd)) as (text' & Ht' & Hparse).
  assert (text' = text) by congruence. subst text'.
  assert (Hl : loaded w (metrics_value (build_metrics (now w) rows)))
    by (unfold loaded; rewrite Hs; exact Hparse).
  destruct (run_parsed w _ rows Hl Hb Hp Hne) as (t & tail & _ & Hrun & Htail).
  assert (Hu : unchanged (metrics_value (build_metrics (now w) rows))
                 (build_metrics (now w) rows) = true).
  { apply unchanged_iff; [apply plain_metrics| |]; auto. }
  rewrite Hu in Htail.
  unfold trace, outcome. rewrite Hrun, Htail. cbn [fst snd].
  rewrite !writes_app, writes_preamble, writes_warning.
  repeat split. apply in_or_app. right. apply in_or_app. right.
  right. left. reflexivity.
Qed.

(** The second half does not: the time stamp is part of the comparison,
    so a stored snapshot taken at another time never compares equal and
    the file is written again, whatever the rows are. *)
Lemma other_time_stamp_rewrites (w : world) (stored_m : metrics)
    (rows : list row) (text : jsstring) :
  snapshot_defined stored_m = true ->
  JSON_stringify (metrics_value stored_m) 2 = Some text ->
  stored w = Some text ->
  browser_ok w ->
  parse_rows (lines_of (innerText w)) = Ok rows -> rows <> [] ->
  updated_at stored_m <> now w ->
  exists text', writes (trace w) = [text'].
Proof.
  intros Hd Ht Hs Hb Hp Hne Htime.
  destruct (parse_stringify _ 2 (plain_metrics _ Hd)) as (text' & Ht' & Hparse).
  assert (text' = text) by congruence. subst text'.
  assert (Hl : loaded w (metrics_value stored_m))
    by (unfold loaded; rewrite Hs; exact Hparse).
  destruct (run_parsed w _ rows Hl Hb Hp Hne) as (t & tail & _ & Hrun & Htail).
  assert (Hu : unchanged (metrics_value stored_m)
                 (build_metrics (now w) rows) = false).
  { apply not_true_is_false. intros Hu.
    apply unchanged_iff in Hu.
    - apply metrics_value_inj in Hu. apply Htime. rewrite Hu. reflexivity.
    - apply plain_metrics, Hd.
    - apply (built_snapshot_defined _ _ _ Hp). }
  rewrite Hu in Htail.
  exists t. unfold trace. rewrite Hrun, Htail. cbn [fst].
  rewrite !writes_app, writes_preamble, writes_warning. reflexivity.
Qed.

(** The paths the script ends itself, by [process.exit], by [return] or
    by running off its end, close the browser first. *)
Lemma explicit_exits_close_browser (w : world) (previous : value)
    (rows : list row) :
  loaded w previous -> browser_ok w ->
  parse_rows (lines_of (innerText w)) = Ok rows ->
  In BrowserLaunched (trace w) /\ In BrowserClosed (trace w)
  /\ (outcome w = Returned \/ outcome w = Exited 1).
Proof.
  intros Hl Hb Hp. destruct rows as [|r rows].
  - unfold trace, outcome. rewrite (run_no_rows w previous Hl Hb Hp).
    cbn [fst snd]. split; [right; left; reflexivity|].
    split; [|right; reflexivity].
    apply in_or_app. right. right. left. reflexivity.
  - destruct (run_parsed w previous (r :: rows) Hl Hb Hp ltac:(discriminate))
      as (text & tail & _ & Hrun & Htail).
    unfold trace, outcome. rewrite Hrun. cbn [fst snd].
    split; [right; left; reflexivity|]. split; [|left; reflexivity].
    apply in_or_app. right. apply in_or_app. right. rewrite Htail.
    destruct (unchanged previous (build_metrics (now w) (r :: rows)));
      simpl; tauto.
Qed.

(** A browser call that rejects after the launch ends the run at once:
    nothing closes the browser. *)
Lemma rejected_call_leaves_browser (w : world) (previous : value) (s : stage) :
  loaded w previous ->
  rejects w Launch = false -> s <> Launch -> rejects w s = true ->
  run w = (preamble w, Rejected BrowserError).
Proof.
  intros Hl HL Hs Hr. unfold run, main, bind at 1.
  rewrite (load_previous_loaded _ _ Hl).
  unfold bind at 1, scrape, await, bind. rewrite HL. cbn.
  destruct (rejects w NewPage) eqn:H1; [reflexivity|].
  destruct (rejects w Goto) eqn:H2; [reflexivity|].
  destruct (rejects w WaitForSelector) eqn:H3; [reflexivity|].
  destruct (rejects w ContentFrame) eqn:H4; [reflexivity|].
  destruct (rejects w Evaluate) eqn:H5; [reflexivity|].
  destruct s; congruence.
Qed.

End RunProperties.

(* ================================================================== *)
(** ** Further properties of the line splitter and the row parser *)
(* ================================================================== *)

Lemma split_on_nonempty (sep : N) (s : jsstring) : split_on sep s <> [].
Proof.
  destruct s as [|c r]; [discriminate|]. simpl.
  destruct (c =? sep)%N; [discriminate|].
  destruct (split_on sep r); discriminate.
Qed.

Lemma split_on_app (sep : N) (a b : jsstring) :
  split_on sep (a ++ sep :: b) = split_on sep a ++ split_on sep b.
Proof.
  induction a as [|c a IH].
  - simpl. rewrite N.eqb_refl. reflexivity.
  - simpl. destruct (c =? sep)%N.
    + rewrite IH. reflexivity.
    + rewrite IH.
      destruct (split_on sep a) as [|piece pieces] eqn:Ha.
      * exfalso. apply (split_on_nonempty sep a Ha).
      * reflexivity.
Qed.

Lemma split_on_no_sep (sep : N) (s piece : jsstring) :
  In piece (split_on sep s) -> ~ In sep piece.
Proof.
  revert piece; induction s as [|c r IH]; intros piece H.
  - destruct H as [<-|[]]. intros [].
  - simpl in H. destruct (N.eqb_spec c sep) as [->|Hc].
    + destruct H as [<-|H]; [intros []|]. apply IH, H.
    + destruct (split_on sep r) as [|p ps] eqn:Hr.
      * destruct H as [<-|[]]. intros [H|[]]. apply Hc, H.
      * destruct H as [<-|H].
        -- intros [H|H]; [apply Hc, H|]. apply (IH p); [left; reflexivity|exact H].
        -- apply IH. right. exact H.
Qed.

Lemma trim_start_incl (s : jsstring) (c : N) : In c (trim_start s) -> In c s.
Proof.
  induction s as [|x s IH]; [intros []|]. simpl.
  destruct (is_trim_space x); [intros H; right; apply IH, H | intros H; exact H].
Qed.

Lemma trim_start_head (s : jsstring) (c : N) (r : jsstring) :
  trim_start s = c :: r -> is_trim_space c = false.
Proof.
  induction s as [|x s IH]; [discriminate|]. simpl.
  destruct (is_trim_space x) eqn:Hx; [exact IH|].
  intros H. injection H as <- _. exact Hx.
Qed.

Lemma trim_start_app_single (a : jsstring) (c : N) :
  trim_start (a ++ [c])
  = match trim_start a with
    | [] => if is_trim_space c then [] else [c]
    | x :: t => (x :: t) ++ [c]
    end.
Proof.
  induction a as [|x a IH]; [reflexivity|].
  simpl. destruct (is_trim_space x); [exact IH | reflexivity].
Qed.

(** [trim_end] read from the front of the string. *)
Lemma trim_end_cons (c : N) (r : jsstring) :
  trim_end (c :: r)
  = match trim_end r with
    | [] => if is_trim_space c then [] else [c]
    | x :: t => c :: x :: t
    end.
Proof.
  unfold trim_end. cbn [rev]. rewrite trim_start_app_single.
  destruct (trim_start (rev r)) as [|x t] eqn:Ht.
  - destruct (is_trim_space c); reflexivity.
  - rewrite rev_app_distr.
    destruct (rev (x :: t)) as [|y u] eqn:Hr; [|reflexivity].
    apply (f_equal (@length N)) in Hr. rewrite length_rev in Hr. discriminate.
Qed.

Lemma trim_end_incl (s : jsstring) (c : N) : In c (trim_end s) -> In c s.
Proof.
  unfold trim_end. intros H. apply in_rev in H.
  apply trim_start_incl in H. apply in_rev in H. exact H.
Qed.

Lemma trim_end_last (s p : jsstring) (c : N) :
  trim_end s = p ++ [c] -> is_trim_space c = false.
Proof.
  unfold trim_end. intros H.
  apply (f_equal (@rev N)) in H. rewrite rev_involutive, rev_app_distr in H.
  apply (trim_start_head _ _ _ H).
Qed.

Lemma trim_end_head (s : jsstring) (c : N) (r : jsstring) :
  (forall x t, s = x :: t -> is_trim_space x = false) ->
  trim_end s = c :: r -> is_trim_space c = false.
Proof.
  destruct s as [|x t]; [discriminate|]. intros Hs.
  specialize (Hs x t eq_refl). rewrite trim_end_cons.
  destruct (trim_end t).
  - rewrite Hs. intros H. injection H as <- _. exact Hs.
  - intros H. injection H as <- _. exact Hs.
Qed.

(** X1.  Every line the splitter returns is clean: it is not empty, it
    holds no line feed, and neither its first nor its last character is
    white space. *)
Theorem X1_lines_are_clean (text l : jsstring) :
  In l (lines_of text) -> clean_line l.
Proof.
  unfold lines_of. intros H. apply filter_In in H. destruct H as [H Hne].
  apply in_map_iff in H. destruct H as (piece & <- & Hp).
  apply split_on_no_sep in Hp.
  split; [intros Hnil; rewrite Hnil in Hne; discriminate|].
  split; [intros Hin; apply Hp; apply trim_start_incl, trim_end_incl, Hin|].
  split.
  - intros c r Hl. apply (trim_end_head (trim_start piece) c r); [|exact Hl].
    intros x t Ht. apply (trim_start_head _ _ _ Ht).
  - intros p c Hl. apply (trim_end_last _ p c Hl).
Qed.

Lemma lines_of_app (a b : jsstring) :
  lines_of (a ++ 10%N :: b)
  = filter truthy_str (map trim (split_on 10%N a))
    ++ filter truthy_str (map trim (split_on 10%N b)).
Proof.
  unfold lines_of. rewrite split_on_app, map_app, filter_app. reflexivity.
Qed.

(** X2.  Splitting distributes over a line feed: the lines of two texts
    joined by a line feed are the lines of the first followed by the
    lines of the second. *)
Theorem X2_lines_of_joined (a b : jsstring) :
  lines_of (a ++ 10%N :: b) = lines_of a ++ lines_of b.
Proof.
  rewrite lines_of_app. reflexivity.
Qed.

Lemma strip_app (a b : jsstring) : strip (a ++ b) = strip a ++ strip b.
Proof.
  unfold strip. induction a as [|c a IH]; [reflexivity|].
  simpl. rewrite IH, app_assoc. reflexivity.
Qed.

Lemma strip_numeric_like (s : jsstring) : numeric_like (strip s) = true.
Proof.
  rewrite strip_keep. unfold numeric_like, keep_digits_and_minus.
  apply forallb_forall. intros c Hc. apply filter_In in Hc. apply Hc.
Qed.

Lemma strip_fixed (s : jsstring) : strip s = s <-> numeric_like s = true.
Proof.
  split.
  - intros <-. apply strip_numeric_like.
  - rewrite strip_keep. unfold numeric_like, keep_digits_and_minus.
    induction s as [|c s IH]; [reflexivity|]. simpl.
    intros H. apply andb_true_iff in H. destruct H as [Hc Hs].
    unfold digit_or_minus in Hc. rewrite Hc. f_equal. apply IH, Hs.
Qed.

(** X3.  Stripping composes: it distributes over concatenation, it never
    lengthens a string, it does nothing on a string of digits and minus
    signs (and only on those), so stripping twice is stripping once. *)
Theorem X3_strip_composes (a b : jsstring) :
  strip (a ++ b) = strip a ++ strip b
  /\ length (strip a) <= length a
  /\ (strip a = a <-> numeric_like a = true)
  /\ strip (strip a) = strip a.
Proof.
  split; [apply strip_app|]. split.
  - rewrite strip_keep. apply filter_length_le.
  - split; [apply strip_fixed|]. apply strip_fixed, strip_numeric_like.
Qed.

(** Each row built by the loop comes from the block of some marker. *)
Lemma scan_in (rest : list jsstring) (acc rows : list row) (r : row) :
  scan rest acc = Ok rows -> In r rows ->
  In r acc
  \/ exists i, nth_error rest i = Some marker
               /\ make_row (firstn 11 (skipn i rest)) = Ok r.
Proof.
  revert acc; induction rest as [|l rest IH]; intros acc H Hin.
  - injection H as <-. left. exact Hin.
  - rewrite scan_cons in H. destruct (is_marker l) eqn:Hm.
    + destruct (make_row (firstn 11 (l :: rest))) as [r0|e] eqn:Hmk;
        [|discriminate].
      destruct (IH _ H Hin) as [Hacc|(i & Hi & Hr)].
      * apply in_app_or in Hacc. destruct Hacc as [Hacc|[<-|[]]].
        -- left. exact Hacc.
        -- right. exists 0. apply is_marker_true in Hm. subst l.
           split; [reflexivity | exact Hmk].
      * right. exists (S i). split; assumption.
    + destruct (IH _ H Hin) as [Hacc|(i & Hi & Hr)].
      * left. exact Hacc.
      * right. exists (S i). split; assumption.
Qed.

Lemma make_row_numeric (block : list jsstring) (r : row) :
  make_row block = Ok r ->
  Forall (fun f => numeric_like f = true) (stripped_fields r).
Proof.
  unfold make_row, replace_at, rbind.
  repeat match goal with
         | |- context [nth_error block ?k] =>
             lazymatch k with
             | 1 => fail
             | _ => destruct (nth_error block k); [|discriminate]
             end
         end.
  intros H; injection H as <-. unfold stripped_fields. cbn.
  repeat constructor; apply strip_numeric_like.
Qed.

(** X4.  Every row of a successful parse belongs to a marker line of the
    text: its week identifier is the line after that marker, a string,
    and each of its eight other fields holds digits and minus signs
    only. *)
Theorem X4_row_fields (lines : list jsstring) (rows : list row) (r : row) :
  parse_rows lines = Ok rows -> In r rows ->
  (exists i week,
     nth_error lines i = Some marker
     /\ nth_error lines (i + 1) = Some week
     /\ sheepweekindex r = Some week)
  /\ Forall (fun f => numeric_like f = true) (stripped_fields r).
Proof.
  intros Hp Hin. rewrite parse_rows_scan in Hp.
  destruct (scan_in lines [] rows r Hp Hin) as [[]|(i & Hi & Hr)].
  split; [|apply (make_row_numeric _ _ Hr)].
  pose proof (make_row_defined _ _ Hr) as Hd.
  apply make_row_fields in Hr. destruct Hr as (Hweek & _).
  rewrite nth_error_block in Hweek by lia.
  unfold row_defined in Hd.
  destruct (sheepweekindex r) as [week|]; [|discriminate].
  exists i, week. repeat split; [exact Hi | symmetry; exact Hweek].
Qed.

Lemma scan_error (rest : list jsstring) (acc : list row) (e : error) :
  scan rest acc = Throw e -> e = TypeError.
Proof.
  revert acc; induction rest as [|l rest IH]; intros acc H; [discriminate|].
  rewrite scan_cons in H. destruct (is_marker l); [|eauto].
  destruct (make_row (firstn 11 (l :: rest))) as [r|e'] eqn:Hmk; [eauto|].
  injection H as <-. apply (make_row_error _ Hmk).
Qed.

(** X5.  The parse succeeds exactly when every marker line has at least
    nine lines after it (the line at offset 10 is never read), and the
    only exception it raises is a [TypeError]. *)
Theorem X5_parse_succeeds_iff (lines : list jsstring) :
  ((exists rows, parse_rows lines = Ok rows) <-> followed_by 9 lines)
  /\ (forall e, parse_rows lines = Throw e -> e = TypeError).
Proof.
  rewrite parse_rows_scan. split; [split|].
  - intros (rows & Hp) i Hi.
    destruct (Nat.lt_ge_cases (i + 9) (length lines)) as [Hl|Hl]; [exact Hl|].
    rewrite (scan_short lines [] i Hi) in Hp by lia. discriminate.
  - intros H. destruct (scan_followed [] H) as (rows & Hp & _).
    exists rows. exact Hp.
  - intros e. apply scan_error.
Qed.

(** X6.  Whenever the parse succeeds, the number of rows is the number
    of marker lines the script logs; so no row means no marker. *)
Theorem X6_rows_match_marker_count (lines : list jsstring) (rows : list row) :
  parse_rows lines = Ok rows ->
  length rows = selectRowCount lines
  /\ (rows = [] <-> selectRowCount lines = 0).
Proof.
  intros Hp. rewrite parse_rows_scan in Hp.
  apply scan_rows_count in Hp. simpl in Hp. split; [exact Hp|].
  rewrite <- Hp. split; [intros ->; reflexivity|].
  destruct rows; [reflexivity | discriminate].
Qed.

(** A row depends on offsets 1 to 9 of its block only. *)
Lemma make_row_ext (b1 b2 : list jsstring) :
  (forall k, 1 <= k <= 9 -> nth_error b1 k = nth_error b2 k) ->
  make_row b1 = make_row b2.
Proof.
  intros H. unfold make_row, replace_at.
  rewrite !H by lia. reflexivity.
Qed.

Lemma scan_marker_free_after (lines post : list jsstring) (acc rows : list row) :
  marker_free post ->
  scan lines acc = Ok rows -> scan (lines ++ post) acc = Ok rows.
Proof.
  intros Hpost. revert acc; induction lines as [|l lines IH]; intros acc H.
  - simpl in *. rewrite <- (app_nil_r post), (scan_marker_free _ _ Hpost).
    exact H.
  - cbn [app]. rewrite scan_cons in *. destruct (is_marker l); [|eauto].
    destruct (make_row (firstn 11 (l :: lines))) as [r|e] eqn:Hmk;
      [|discriminate].
    replace (make_row (firstn 11 (l :: lines ++ post))) with (Ok r).
    + apply IH, H.
    + rewrite <- Hmk. apply make_row_ext. intros k Hk.
      assert (Hlen : 10 <= length (firstn 11 (l :: lines))).
      { destruct (Nat.lt_ge_cases (length (firstn 11 (l :: lines))) 10)
          as [Hs|Hs]; [|exact Hs].
        rewrite (make_row_short _ Hs) in Hmk. discriminate. }
      rewrite length_firstn in Hlen.
      rewrite !nth_error_firstn.
      destruct (Nat.ltb_spec k 11); [|lia].
      change (l :: lines ++ post) with ((l :: lines) ++ post).
      rewrite nth_error_app1 by lia. reflexivity.
Qed.

(** X7.  The text around the table is ignored: lines without a marker
    put before and after the lines of a successful parse leave the rows
    as they are. *)
Theorem X7_surrounding_lines_ignored (pre lines post : list jsstring)
    (rows : list row) :
  marker_free pre -> marker_free post ->
  parse_rows lines = Ok rows ->
  parse_rows (pre ++ lines ++ post) = Ok rows.
Proof.
  intros Hpre Hpost Hp. rewrite parse_rows_scan in *.
  rewrite (scan_marker_free _ _ Hpre).
  apply scan_marker_free_after; assumption.
Qed.

Lemma clean_lineb_ok (l : jsstring) : clean_lineb l = true -> clean_line l.
Proof.
  unfold clean_lineb. intros H.
  apply andb_true_iff in H. destruct H as [H Hlast].
  apply andb_true_iff in H. destruct H as [Hnl Hhead].
  split; [intros ->; discriminate Hhead|].
  split.
  - intros Hin. apply negb_true_iff in Hnl.
    assert (Hex : existsb (N.eqb 10) l = true)
      by (apply existsb_exists; exists 10%N; split; [exact Hin | reflexivity]).
    congruence.
  - split.
    + intros c r ->. apply negb_true_iff, Hhead.
    + intros p c ->. rewrite rev_app_distr in Hlast.
      apply negb_true_iff, Hlast.
Qed.

Lemma split_on_absent (sep : N) (s : jsstring) :
  ~ In sep s -> split_on sep s = [s].
Proof.
  induction s as [|c s IH]; [reflexivity|]. intros H. simpl.
  destruct (N.eqb_spec c sep) as [->|Hc]; [exfalso; apply H; left; reflexivity|].
  rewrite IH; [reflexivity|]. intros Hin. apply H. right. exact Hin.
Qed.

Lemma trim_clean (l : jsstring) : clean_line l -> trim l = l.
Proof.
  intros (Hne & _ & Hhead & Hlast). unfold trim.
  assert (Hs : trim_start l = l).
  { destruct l as [|c r]; [reflexivity|]. simpl.
    rewrite (Hhead c r eq_refl). reflexivity. }
  rewrite Hs. unfold trim_end.
  destruct (rev l) as [|c r] eqn:Hr.
  - apply (f_equal (@rev N)) in Hr. rewrite rev_involutive in Hr. exact (eq_sym Hr).
  - assert (Hl : l = rev r ++ [c]).
    { apply (f_equal (@rev N)) in Hr. rewrite rev_involutive in Hr. exact Hr. }
    simpl. rewrite (Hlast (rev r) c Hl). simpl. symmetry. exact Hl.
Qed.

Lemma lines_of_clean (l : jsstring) : clean_line l -> lines_of l = [l].
Proof.
  intros H. unfold lines_of.
  rewrite (split_on_absent 10%N l (proj1 (proj2 H))). simpl.
  rewrite (trim_clean l H).
  destruct l as [|c r]; [exfalso; apply (proj1 H); reflexivity | reflexivity].
Qed.

(** X15.  Clean lines joined by line feeds are given back by the
    splitter as they are, in their order: together with X1, the lists of
    clean lines are exactly what the splitter can return. *)
Theorem X15_lines_of_unlines (ls : list jsstring) :
  Forall clean_line ls -> lines_of (unlines ls) = ls.
Proof.
  induction 1 as [|l ls Hl Hls IH]; [reflexivity|].
  destruct ls as [|l' ls].
  - apply (lines_of_clean l Hl).
  - change (unlines (l :: l' :: ls)) with (l ++ 10%N :: unlines (l' :: ls)).
    rewrite lines_of_app. fold (lines_of l) (lines_of (unlines (l' :: ls))).
    rewrite IH, (lines_of_clean l Hl). reflexivity.
Qed.

(* ================================================================== *)
(** ** Further properties of a run *)
(* ================================================================== *)

Section MoreRunProperties.

Context {E : Engine}.

Lemma browser_okb_ok (w : world) : browser_okb w = true <-> browser_ok w.
Proof.
  unfold browser_okb, browser_ok. rewrite forallb_forall. split.
  - intros H s. apply negb_true_iff. apply H.
    destruct s; simpl; tauto.
  - intros H s _. rewrite H. reflexivity.
Qed.

Lemma loader_cases (w : world) :
  (exists text, stored w = Some text /\ JSON_parse text = None)
  \/ loadable w.
Proof.
  unfold loadable, loaded. destruct (stored w) as [text|].
  - destruct (JSON_parse text) as [v|] eqn:Hp.
    + right. exists v. reflexivity.
    + left. exists text. split; reflexivity || exact Hp.
  - right. exists VNull. reflexivity.
Qed.

Lemma run_loader_throws (w : world) (text : jsstring) :
  stored w = Some text -> JSON_parse text = None ->
  run w = ([], Rejected SyntaxError).
Proof.
  intros Hs Hp. unfold run, main, bind at 1, load_previous.
  rewrite Hs, Hp. reflexivity.
Qed.

Lemma run_launch_rejected (w : world) (previous : value) :
  loaded w previous -> rejects w Launch = true ->
  run w = ([ConsoleLog (load_message w)], Rejected BrowserError).
Proof.
  intros Hl Hr. unfold run, main, bind at 1.
  rewrite (load_previous_loaded _ _ Hl).
  unfold bind at 1, scrape, await, bind. rewrite Hr. reflexivity.
Qed.

Lemma run_later_rejected (w : world) (previous : value) :
  loaded w previous -> rejects w Launch = false -> browser_okb w = false ->
  run w = (preamble w, Rejected BrowserError).
Proof.
  intros Hl HL Hb.
  assert (Hs : exists s, s <> Launch /\ rejects w s = true).
  { unfold browser_okb, all_stages in Hb. cbn [forallb] in Hb.
    rewrite HL in Hb. cbn [negb andb] in Hb.
    destruct (rejects w NewPage) eqn:H1;
      [exists NewPage; split; [discriminate|exact H1]|].
    destruct (rejects w Goto) eqn:H2;
      [exists Goto; split; [discriminate|exact H2]|].
    destruct (rejects w WaitForSelector) eqn:H3;
      [exists WaitForSelector; split; [discriminate|exact H3]|].
    destruct (rejects w ContentFrame) eqn:H4;
      [exists ContentFrame; split; [discriminate|exact H4]|].
    destruct (rejects w Evaluate) eqn:H5;
      [exists Evaluate; split; [discriminate|exact H5]|].
    discriminate. }
  destruct Hs as (s & Hs & Hr).
  apply (rejected_call_leaves_browser w previous s Hl HL Hs Hr).
Qed.

(** The seven ways a run can go. *)
Lemma run_shape (w : world) :
  (exists text, stored w = Some text /\ JSON_parse text = None
                /\ run w = ([], Rejected SyntaxError))
  \/ exists previous, loaded w previous /\
     ((rejects w Launch = true
       /\ run w = ([ConsoleLog (load_message w)], Rejected BrowserError))
      \/ (rejects w Launch = false /\ browser_okb w = false
          /\ run w = (preamble w, Rejected BrowserError))
      \/ (browser_ok w /\
          ((exists e, parse_rows (lines_of (innerText w)) = Throw e
                      /\ run w = (preamble w, Rejected e))
           \/ (parse_rows (lines_of (innerText w)) = Ok []
               /\ run w = (preamble w ++ [ConsoleError NoRowsFound; BrowserClosed],
                           Exited 1))
           \/ (exists rows text tail,
                 rows <> []
                 /\ parse_rows (lines_of (innerText w)) = Ok rows
                 /\ JSON_stringify
                      (metrics_value (build_metrics (now w) rows)) 2 = Some text
                 /\ run w = (preamble w ++ warning rows ++ tail, Returned)
                 /\ tail =
                    (if unchanged previous (build_metrics (now w) rows)
                     then [ConsoleLog NoChangesSkippingWrite; BrowserClosed]
                     else [ConsoleLog ChangesWritingFile; FileWritten text;
                           ConsoleLog WrittenTo; BrowserClosed;
                           ConsoleLog ScrapeCompleted]))))).
Proof.
  destruct (loader_cases w) as [(text & Hs & Hp)|(previous & Hl)].
  - left. exists text. repeat split; try assumption.
    apply (run_loader_throws w text Hs Hp).
  - right. exists previous. split; [exact Hl|].
    destruct (rejects w Launch) eqn:HL.
    + left. split; [reflexivity|]. apply (run_launch_rejected w previous Hl HL).
    + right. destruct (browser_okb w) eqn:Hb.
      * right. apply browser_okb_ok in Hb. split; [exact Hb|].
        destruct (parse_rows (lines_of (innerText w))) as [rows|e] eqn:Hp.
        -- right. destruct rows as [|r rows].
           ++ left. split; [reflexivity|].
              apply (run_no_rows w previous Hl Hb Hp).
           ++ right.
              destruct (run_parsed w previous (r :: rows) Hl Hb Hp
                          ltac:(discriminate))
                as (text & tail & Ht & Hrun & Htail).
              exists (r :: rows), text, tail.
              repeat split; try assumption. discriminate.
        -- left. exists e. split; [reflexivity|].
           apply (main_parse_throws w previous e Hl Hb Hp).
      * left. repeat split. apply (run_later_rejected w previous Hl HL Hb).
Qed.

Ltac run_cases w :=
  let text := fresh "text" in
  let previous := fresh "previous" in
  let e := fresh "e" in
  let rows := fresh "rows" in
  let tail := fresh "tail" in
  destruct (run_shape w)
    as [(text & Hs & Hp & Hrun)
       |(previous & Hl &
         [(HL & Hrun)
         |[(HL & Hb & Hrun)
          |(Hb & [(e & Hp & Hrun)
                 |[(Hp & Hrun)
                  |(rows & text & tail & Hne & Hp & Ht & Hrun & Htail)]])]])].

Lemma writes_tail (previous : value) (m : metrics) (text : jsstring) :
  writes
    (if unchanged previous m
     then [ConsoleLog NoChangesSkippingWrite; BrowserClosed]
     else [ConsoleLog ChangesWritingFile; FileWritten text;
           ConsoleLog WrittenTo; BrowserClosed; ConsoleLog ScrapeCompleted])
  = if unchanged previous m then [] else [text].
Proof. destruct (unchanged previous m); reflexivity. Qed.


(** X9.  Whatever a run writes is the pretty-printed snapshot of the
    rows it parsed; that text has no lone surrogate, [JSON.parse] reads
    it back as the snapshot, and it is the content of the file after
    the run: the script never leaves a file the next run cannot load. *)
Theorem X9_written_file_loads (w : world) (text : jsstring) :
  In text (writes (trace w)) ->
  exists rows,
    parse_rows (lines_of (innerText w)) = Ok rows
    /\ rows <> []
    /\ JSON_stringify (metrics_value (build_metrics (now w) rows)) 2 = Some text
    /\ well_formed text = true
    /\ JSON_parse text = Some (metrics_value (build_metrics (now w) rows))
    /\ stored_after w = Some text.
Proof.
  unfold stored_after, trace.
  run_cases w; rewrite Hrun; cbn [fst snd];
    try (intros []; fail).
  rewrite Htail, !writes_app, writes_preamble, writes_warning, writes_tail.
  destruct (unchanged previous (build_metrics (now w) rows));
    [intros []|].
  intros [<-|[]]. exists rows.
  pose proof (built_snapshot_defined _ _ (now w) Hp) as Hd.
  destruct (parse_stringify _ 2 (plain_metrics _ Hd)) as (t & Ht' & Hparse).
  assert (t = text0) by congruence. subst t.
  repeat split; try assumption.
  apply (written_text_well_formed _ _ Hd Ht).
Qed.

(** X10.  A marker line with fewer than nine lines after it makes the
    whole run fail: the [TypeError] of the parser is not caught, nothing
    is written, and the browser that was launched is not closed. *)
Theorem X10_short_block_ends_run (w : world) (i : nat) :
  loadable w -> browser_ok w ->
  nth_error (lines_of (innerText w)) i = Some marker ->
  length (lines_of (innerText w)) < i + 10 ->
  outcome w = Rejected TypeError
  /\ writes (trace w) = []
  /\ In BrowserLaunched (trace w)
  /\ ~ In BrowserClosed (trace w).
Proof.
  intros (previous & Hl) Hb Hi Hlen.
  assert (Hp : parse_rows (lines_of (innerText w)) = Throw TypeError).
  { rewrite parse_rows_scan. apply (scan_short _ [] i Hi Hlen). }
  unfold outcome, trace.
  rewrite (main_parse_throws w previous TypeError Hl Hb Hp). cbn [fst snd].
  split; [reflexivity|]. split; [reflexivity|].
  split; [right; left; reflexivity|].
  intros [H|[H|[]]]; discriminate H.
Qed.

Lemma stringify_metrics_brace (m : metrics) :
  exists rest, JSON_stringify (metrics_value m) 0 = Some (123%N :: rest).
Proof.
  unfold JSON_stringify, metrics_value.
  cbn [SerializeJSONProperty object_partial snd Nat.min repeat app].
  eexists. unfold bracket. reflexivity.
Qed.

Lemma foreign_value_changed (previous : value) (m : metrics) :
  foreign_value previous = true -> unchanged previous m = false.
Proof.
  intros Hf. unfold unchanged.
  destruct (stringify_metrics_brace m) as (rest & ->).
  destruct previous as [| |[|]|n|s|elems|props]; try discriminate Hf;
    try reflexivity.
  - destruct s; reflexivity.
  - cbn [truthy andb]. unfold JSON_stringify.
    cbn [SerializeJSONProperty]. unfold bracket.
    destruct (array_partial _ elems); reflexivity.
Qed.

(** X11.  With no stored file, or with a stored file that holds [null],
    a boolean, a string or an array, the change detector never skips:
    whenever rows were parsed the snapshot is written. *)
Theorem X11_foreign_file_is_overwritten (w : world) (previous : value)
    (rows : list row) :
  loaded w previous -> foreign_value previous = true ->
  browser_ok w ->
  parse_rows (lines_of (innerText w)) = Ok rows -> rows <> [] ->
  exists text,
    JSON_stringify (metrics_value (build_metrics (now w) rows)) 2 = Some text
    /\ writes (trace w) = [text]
    /\ stored_after w = Some text.
Proof.
  intros Hl Hf Hb Hp Hne.
  destruct (run_parsed w previous rows Hl Hb Hp Hne)
    as (text & tail & Ht & Hrun & Htail).
  rewrite (foreign_value_changed _ _ Hf) in Htail.
  exists text. split; [exact Ht|].
  unfold stored_after, trace. rewrite Hrun, Htail. cbn [fst].
  rewrite !writes_app, writes_preamble, writes_warning. split; reflexivity.
Qed.

(** X12.  When the file holds a snapshot the script wrote, under any
    indentation, the run skips the write exactly when the snapshot it
    builds equals the stored one in every field, time stamp included:
    any difference in any row is detected. *)
Theorem X12_stored_snapshot_decides (w : world) (stored_m : metrics)
    (space : nat) (text : jsstring) (rows : list row) :
  snapshot_defined stored_m = true ->
  JSON_stringify (metrics_value stored_m) space = Some text ->
  stored w = Some text ->
  browser_ok w ->
  parse_rows (lines_of (innerText w)) = Ok rows -> rows <> [] ->
  (writes (trace w) = [] <-> stored_m = build_metrics (now w) rows).
Proof.
  intros Hd Ht Hs Hb Hp Hne.
  destruct (parse_stringify _ space (plain_metrics _ Hd))
    as (text' & Ht' & Hparse).
  assert (text' = text) by congruence. subst text'.
  assert (Hl : loaded w (metrics_value stored_m))
    by (unfold loaded; rewrite Hs; exact Hparse).
  destruct (run_parsed w _ rows Hl Hb Hp Hne) as (t & tail & _ & Hrun & Htail).
  unfold trace. rewrite Hrun, Htail. cbn [fst].
  rewrite !writes_app, writes_preamble, writes_warning, writes_tail.
  pose proof (unchanged_iff (metrics_value stored_m)
                (build_metrics (now w) rows) (plain_metrics _ Hd)
                (built_snapshot_defined _ _ (now w) Hp)) as Hiff.
  destruct (unchanged (metrics_value stored_m) (build_metrics (now w) rows)).
  - split; [intros _|reflexivity].
    apply metrics_value_inj, Hiff. reflexivity.
  - split; [discriminate|].
    intros Heq. rewrite Heq in Hiff.
    assert (false = true) by (apply Hiff; reflexivity). discriminate.
Qed.




(** X14.  The run exits with code 1 exactly when the loader and all
    browser calls succeed and the text has no marker line; no other exit
    code is ever passed to [process.exit]; and the run returns normally
    exactly when they succeed and at least one row is parsed. *)
Theorem X14_outcomes (w : world) :
  (outcome w = Exited 1
   <-> loadable w /\ browser_ok w
       /\ selectRowCount (lines_of (innerText w)) = 0)
  /\ (forall code, outcome w = Exited code -> code = 1%N)
  /\ (outcome w = Returned
      <-> loadable w /\ browser_ok w
          /\ exists rows,
               parse_rows (lines_of (innerText w)) = Ok rows /\ rows <> []).
Proof.
  assert (Hzero : forall rows,
             parse_rows (lines_of (innerText w)) = Ok rows ->
             (rows = [] <-> selectRowCount (lines_of (innerText w)) = 0)).
  { intros rows Hp. rewrite parse_rows_scan in Hp.
    apply scan_rows_count in Hp. simpl in Hp. rewrite <- Hp.
    split; [intros ->; reflexivity|].
    destruct rows; [reflexivity | discriminate]. }
  assert (Hokb : browser_okb w = false -> ~ browser_ok w).
  { intros Hb Hok. apply browser_okb_ok in Hok. congruence. }
  assert (Hthrow : forall e,
             parse_rows (lines_of (innerText w)) = Throw e ->
             selectRowCount (lines_of (innerText w)) <> 0).
  { intros e Hp H0. rewrite parse_rows_scan, (scan_no_marker _ [] H0) in Hp.
    discriminate. }
  unfold outcome, loadable.
  run_cases w; rewrite Hrun; cbn [snd].
  - assert (Hno : ~ exists previous, loaded w previous).
    { intros (p & Hlp). unfold loaded in Hlp. rewrite Hs in Hlp. congruence. }
    split; [split; [discriminate|intros (H & _); contradiction]|].
    split; [discriminate|].
    split; [discriminate|intros (H & _); contradiction].
  - assert (Hno : ~ browser_ok w) by (intros H; rewrite H in HL; discriminate).
    split; [split; [discriminate|intros (_ & H & _); contradiction]|].
    split; [discriminate|].
    split; [discriminate|intros (_ & H & _); contradiction].
  - apply Hokb in Hb.
    split; [split; [discriminate|intros (_ & H & _); contradiction]|].
    split; [discriminate|].
    split; [discriminate|intros (_ & H & _); contradiction].
  - split; [split; [discriminate|]|].
    + intros (_ & _ & H0). exfalso. apply (Hthrow e Hp H0).
    + split; [discriminate|].
      split; [discriminate|intros (_ & _ & rows & Hr & _); congruence].
  - split; [split; [intros _|reflexivity]|].
    + split; [exists previous; exact Hl|]. split; [exact Hb|].
      apply (Hzero [] Hp). reflexivity.
    + split; [intros code H; injection H as <-; reflexivity|].
      split; [discriminate|].
      intros (_ & _ & rows & Hr & Hne). rewrite Hp in Hr.
      injection Hr as <-. contradiction.
  - split; [split; [discriminate|]|].
    + intros (_ & _ & H0). apply (Hzero rows Hp) in H0. contradiction.
    + split; [discriminate|].
      split; [intros _|reflexivity].
      split; [exists previous; exact Hl|]. split; [exact Hb|].
      exists rows. split; assumption.
Qed.

End MoreRunProperties.

(* ================================================================== *)
(** ** Concrete runs *)
(* ================================================================== *)

Lemma all_resolve_ok (stored_ : option jsstring) (text now_ : jsstring) :
  browser_ok (mkWorld stored_ all_resolve text now_).
Proof. intros s. reflexivity. Qed.

Example sample_lines_of_text :
  lines_of text_four_blocks
  = [lit "Weekly report"] ++ sample_lines "W2024-10" ++ []
    ++ sample_lines "W2024-09" ++ [] ++ sample_lines "W2024-08" ++ []
    ++ sample_lines "W2024-07" ++ [lit "Page 1 of 1"].
Proof. concrete. Qed.

Lemma C2_field_stripping_witness :
  parse_rows (lines_of text_one_block) = Ok [sample_row "W2024-10"]
  /\ nth_error (lines_of text_one_block) 1 = Some marker
  /\ exists r,
       nth_error [sample_row "W2024-10"] 0 = Some r
       /\ sheepweekindex r = Some (lit "W2024-10")
       /\ total_head_inc_reoffers r = lit "1500"
       /\ arli_ckg_dw r = lit "1105".
Proof.
  assert (Hp : parse_rows (lines_of text_one_block) = Ok [sample_row "W2024-10"])
    by concrete.
  assert (Hi : nth_error (lines_of text_one_block) 1 = Some marker)
    by concrete.
  split; [exact Hp|]. split; [exact Hi|].
  destruct (C2_field_stripping _ _ _ Hp Hi) as ((r & Hr & Hw & Hh & _ & _ & Ha & _) & _).
  exists r. split; [exact Hr|].
  split; [rewrite Hw; concrete|].
  split.
  - replace (option_map keep_digits_and_minus
               (nth_error (lines_of text_one_block) (1 + 2)))
      with (Some (lit "1500")) in Hh by concrete.
    injection Hh as ->. reflexivity.
  - replace (option_map keep_digits_and_minus
               (nth_error (lines_of text_one_block) (1 + 5)))
      with (Some (lit "1105")) in Ha by concrete.
    injection Ha as ->. reflexivity.
Defined.

Lemma C3_four_blocks_witness :
  exists r1 r2 r3 r4,
    parse_rows (lines_of text_four_blocks) = Ok [r1; r2; r3; r4]
    /\ r1 = sample_row "W2024-10" /\ r2 = sample_row "W2024-09"
    /\ r3 = sample_row "W2024-08" /\ r4 = sample_row "W2024-07"
    /\ build_metrics monday [r1; r2; r3; r4]
       = mkMetrics monday (Some r1) (Some r2) (Some r3) (Some r4).
Proof.
  destruct (C3_four_blocks_in_order text_four_blocks monday
              [lit "Weekly report"] (sample_lines "W2024-10") []
              (sample_lines "W2024-09") [] (sample_lines "W2024-08") []
              (sample_lines "W2024-07") [lit "Page 1 of 1"]
              sample_lines_of_text
              ltac:(block_ok) ltac:(block_ok) ltac:(block_ok) ltac:(block_ok)
              ltac:(no_markers) ltac:(no_markers) ltac:(no_markers)
              ltac:(no_markers) ltac:(no_markers))
    as (r1 & r2 & r3 & r4 & M1 & M2 & M3 & M4 & Hp & Hm).
  exists r1, r2, r3, r4.
  split; [exact Hp|].
  vm_compute in M1, M2, M3, M4.
  injection M1 as M1. injection M2 as M2.
  injection M3 as M3. injection M4 as M4.
  repeat (split; [symmetry; assumption|]). exact Hm.
Defined.

Lemma C5_short_block_witness :
  nth_error lines_cut_short 0 = Some marker
  /\ length lines_cut_short < 0 + 11
  /\ length lines_cut_short < 0 + 10
  /\ make_row (slice lines_cut_short 0 (0 + 11)) = Throw TypeError
  /\ parse_rows lines_cut_short = Throw TypeError.
Proof.
  assert (H0 : nth_error lines_cut_short 0 = Some marker) by reflexivity.
  assert (H11 : length lines_cut_short < 0 + 11) by (vm_compute; lia).
  assert (H10 : length lines_cut_short < 0 + 10) by (vm_compute; lia).
  repeat (split; [assumption|]).
  exact (proj2 (proj2 (C5_short_block lines_cut_short 0 H0 H11)) H10).
Defined.

(** C5 as the specification words it fails: the marker of
    [lines_cut_short] has fewer than eleven lines left, and the parser
    builds no row with undefined fields for it; it throws. *)
Lemma C5_counterexample :
  nth_error lines_cut_short 0 = Some marker
  /\ length lines_cut_short < 0 + 11
  /\ ~ (exists r, make_row (slice lines_cut_short 0 (0 + 11)) = Ok r)
  /\ ~ (exists rows, parse_rows lines_cut_short = Ok rows).
Proof.
  split; [reflexivity|]. split; [vm_compute; lia|].
  split; intros (x & H); vm_compute in H; discriminate H.
Qed.

Lemma overlapping_followed : followed_by 10 lines_overlapping.
Proof.
  intros i Hi.
  do 12 (destruct i as [|i];
         [first [vm_compute; lia | vm_compute in Hi; discriminate Hi]|]).
  destruct i; discriminate Hi.
Qed.

Lemma C10_row_per_marker_witness :
  followed_by 10 lines_overlapping
  /\ selectRowCount lines_overlapping = 2
  /\ exists rows,
       parse_rows lines_overlapping = Ok rows
       /\ length rows = selectRowCount lines_overlapping.
Proof.
  split; [exact overlapping_followed|]. split; [reflexivity|].
  exact (C10_row_per_marker lines_overlapping overlapping_followed).
Defined.

#[local] Existing Instance literal_engine.

Lemma C4_exit_codes_witness :
  (loaded no_block_run VNull /\ browser_ok no_block_run
   /\ selectRowCount (lines_of (innerText no_block_run)) = 0
   /\ outcome no_block_run = Exited 1
   /\ exit_code (outcome no_block_run) = Some 1%N
   /\ writes (trace no_block_run) = []
   /\ In (ConsoleError NoRowsFound) (trace no_block_run))
  /\ (loaded one_block_again (metrics_value monday_one_block)
      /\ browser_ok one_block_again
      /\ outcome one_block_again = Returned
      /\ exit_code (outcome one_block_again) = Some 0%N).
Proof.
  assert (H1 : loaded no_block_run VNull) by reflexivity.
  assert (H2 : browser_ok no_block_run) by apply all_resolve_ok.
  assert (H3 : selectRowCount (lines_of (innerText no_block_run)) = 0)
    by concrete.
  assert (H4 : loaded one_block_again (metrics_value monday_one_block))
    by concrete.
  assert (H5 : browser_ok one_block_again) by apply all_resolve_ok.
  assert (H6 : parse_rows (lines_of (innerText one_block_again))
               = Ok [sample_row "W2024-10"]) by concrete.
  split.
  - repeat (split; [assumption|]).
    exact (proj1 (C4_exit_codes no_block_run VNull H1 H2) H3).
  - repeat (split; [assumption|]).
    apply (proj2 (C4_exit_codes one_block_again _ H4 H5) _ H6).
    discriminate.
Defined.

Lemma C7_other_row_counts_witness :
  loaded one_block_fresh VNull /\ browser_ok one_block_fresh
  /\ parse_rows (lines_of (innerText one_block_fresh))
     = Ok [sample_row "W2024-10"]
  /\ In (ConsoleError (ExpectedFourRows 1)) (trace one_block_fresh)
  /\ outcome one_block_fresh = Returned
  /\ this_week monday_one_block = Some (sample_row "W2024-10")
  /\ last_week monday_one_block = None
  /\ exists text,
       JSON_stringify (metrics_value monday_one_block) 2 = Some text
       /\ writes (trace one_block_fresh) = [text].
Proof.
  assert (H1 : loaded one_block_fresh VNull) by reflexivity.
  assert (H2 : browser_ok one_block_fresh) by apply all_resolve_ok.
  assert (H3 : parse_rows (lines_of (innerText one_block_fresh))
               = Ok [sample_row "W2024-10"]) by concrete.
  repeat (split; [assumption|]).
  destruct (C7_other_row_counts one_block_fresh VNull _ H1 H2 H3
              ltac:(discriminate) ltac:(discriminate))
    as (Hwarn & Hout & Ht & Hl & _ & _ & _ & text & Htext & Hwrites).
  repeat (split; [assumption|]).
  exists text. split; assumption.
Defined.

(** C7 as the specification words it fails on its last clause: here one
    row is parsed, the warning is printed, and nothing is written,
    because the file already holds the snapshot this run builds. *)
Lemma C7_counterexample :
  parse_rows (lines_of (innerText one_block_again))
  = Ok [sample_row "W2024-10"]
  /\ browser_ok one_block_again
  /\ In (ConsoleError (ExpectedFourRows 1)) (trace one_block_again)
  /\ outcome one_block_again = Returned
  /\ writes (trace one_block_again) = [].
Proof.
  split; [concrete|]. split; [apply all_resolve_ok|].
  split; [|split; concrete].
  vm_compute. right. right. left. reflexivity.
Qed.

Lemma C8_loader_witness :
  (stored first_run = None
   /\ load_previous first_run [] = ([ConsoleLog NoPreviousFile], inl VNull)
   /\ main first_run []
      = bind (scrape first_run) (finish_run first_run VNull)
             [ConsoleLog NoPreviousFile])
  /\ (stored broken_file_run = Some (lit "{ updated_at: ")
      /\ JSON_parse (lit "{ updated_at: ") = None
      /\ run broken_file_run = ([], Rejected SyntaxError)).
Proof.
  assert (H1 : stored first_run = None) by reflexivity.
  assert (H2 : stored broken_file_run = Some (lit "{ updated_at: "))
    by reflexivity.
  assert (H3 : JSON_parse (lit "{ updated_at: ") = None) by concrete.
  split.
  - split; [assumption|]. exact (proj1 (C8_loader first_run) H1).
  - repeat (split; [assumption|]).
    exact (proj2 (C8_loader broken_file_run) _ H2 H3).
Defined.

Lemma C9_write_then_load_witness :
  snapshot_defined monday_one_block = true
  /\ exists text,
       JSON_stringify (metrics_value monday_one_block) 2 = Some text
       /\ well_formed text = true
       /\ JSON_parse text = Some (metrics_value monday_one_block)
       /\ forall w, stored w = Some text ->
            load_previous w []
            = ([ConsoleLog LoadedPrevious], inl (metrics_value monday_one_block)).
Proof.
  assert (H : snapshot_defined monday_one_block = true) by reflexivity.
  split; [exact H|]. exact (C9_write_then_load monday_one_block H).
Defined.

(** C1: the file [first_run] wrote holds the rows that [second_run]
    parses again from the same text; only the time stamp differs, and
    the file is written a second time. *)
Theorem C1_second_run_writes_again :
  innerText second_run = innerText first_run
  /\ stored second_run = stored_after first_run
  /\ (exists text1,
        writes (trace first_run) = [text1] /\ stored second_run = Some text1)
  /\ In (ConsoleLog ChangesWritingFile) (trace second_run)
  /\ exists text2, writes (trace second_run) = [text2].
Proof.
  split; [reflexivity|]. split; [reflexivity|].
  split; [eexists; split; concrete|].
  split; [vm_compute; do 2 right; left; reflexivity|].
  eexists; concrete.
Qed.

(** C6: when [page.goto] times out after the launch, the run ends with
    the rejection and the browser was never closed. *)
Theorem C6_timeout_leaves_browser_open :
  run navigation_timeout_run
  = ([ConsoleLog NoPreviousFile; BrowserLaunched], Rejected BrowserError)
  /\ In BrowserLaunched (trace navigation_timeout_run)
  /\ ~ In BrowserClosed (trace navigation_timeout_run).
Proof.
  split; [reflexivity|]. split; [right; left; reflexivity|].
  intros [H|[H|[]]]; discriminate H.
Qed.

(* ================================================================== *)
(** ** Concrete instances of the further properties *)
(* ================================================================== *)

Lemma X1_lines_are_clean_witness :
  In marker (lines_of text_one_block) /\ clean_line marker.
Proof.
  assert (H : In marker (lines_of text_one_block))
    by (vm_compute; right; left; reflexivity).
  split; [exact H|]. exact (X1_lines_are_clean text_one_block marker H).
Defined.

Lemma X4_row_fields_witness :
  parse_rows (lines_of text_one_block) = Ok [sample_row "W2024-10"]
  /\ In (sample_row "W2024-10") [sample_row "W2024-10"]
  /\ (exists i week,
        nth_error (lines_of text_one_block) i = Some marker
        /\ nth_error (lines_of text_one_block) (i + 1) = Some week
        /\ sheepweekindex (sample_row "W2024-10") = Some week)
  /\ Forall (fun f => numeric_like f = true)
       (stripped_fields (sample_row "W2024-10")).
Proof.
  assert (Hp : parse_rows (lines_of text_one_block) = Ok [sample_row "W2024-10"])
    by concrete.
  assert (Hin : In (sample_row "W2024-10") [sample_row "W2024-10"])
    by (left; reflexivity).
  split; [exact Hp|]. split; [exact Hin|].
  exact (X4_row_fields _ _ _ Hp Hin).
Defined.

Lemma X5_parse_succeeds_iff_witness :
  followed_by 9 lines_overlapping
  /\ (exists rows, parse_rows lines_overlapping = Ok rows)
  /\ parse_rows lines_cut_short = Throw TypeError
  /\ TypeError = TypeError.
Proof.
  assert (H9 : followed_by 9 lines_overlapping)
    by (apply (followed_by_weaken (n := 10)); [lia | exact overlapping_followed]).
  assert (Ht : parse_rows lines_cut_short = Throw TypeError) by reflexivity.
  split; [exact H9|].
  split; [exact (proj2 (proj1 (X5_parse_succeeds_iff lines_overlapping)) H9)|].
  split; [exact Ht|].
  exact (proj2 (X5_parse_succeeds_iff lines_cut_short) TypeError Ht).
Defined.

Lemma X6_rows_match_marker_count_witness :
  parse_rows (lines_of text_four_blocks)
  = Ok [sample_row "W2024-10"; sample_row "W2024-09";
        sample_row "W2024-08"; sample_row "W2024-07"]
  /\ 4 = selectRowCount (lines_of text_four_blocks).
Proof.
  assert (Hp : parse_rows (lines_of text_four_blocks)
               = Ok [sample_row "W2024-10"; sample_row "W2024-09";
                     sample_row "W2024-08"; sample_row "W2024-07"])
    by concrete.
  split; [exact Hp|].
  exact (proj1 (X6_rows_match_marker_count _ _ Hp)).
Defined.

Lemma X7_surrounding_lines_ignored_witness :
  marker_free [lit "Weekly report"] /\ marker_free [lit "Page 1 of 1"]
  /\ parse_rows (sample_lines "W2024-10") = Ok [sample_row "W2024-10"]
  /\ parse_rows ([lit "Weekly report"] ++ sample_lines "W2024-10"
                 ++ [lit "Page 1 of 1"])
     = Ok [sample_row "W2024-10"].
Proof.
  assert (H1 : marker_free [lit "Weekly report"]) by no_markers.
  assert (H2 : marker_free [lit "Page 1 of 1"]) by no_markers.
  assert (H3 : parse_rows (sample_lines "W2024-10") = Ok [sample_row "W2024-10"])
    by concrete.
  repeat (split; [assumption|]).
  exact (X7_surrounding_lines_ignored _ _ _ _ H1 H2 H3).
Defined.


Lemma first_run_write :
  exists text, writes (trace first_run) = [text].
Proof. eexists. concrete. Qed.

Lemma X9_written_file_loads_witness :
  exists text,
    In text (writes (trace first_run))
    /\ exists rows,
         parse_rows (lines_of (innerText first_run)) = Ok rows
         /\ rows <> []
         /\ JSON_stringify (metrics_value (build_metrics (now first_run) rows)) 2
            = Some text
         /\ well_formed text = true
         /\ JSON_parse text
            = Some (metrics_value (build_metrics (now first_run) rows))
         /\ stored_after first_run = Some text.
Proof.
  destruct first_run_write as (text & Hw).
  assert (H : In text (writes (trace first_run)))
    by (rewrite Hw; left; reflexivity).
  exists text. split; [exact H|].
  exact (X9_written_file_loads first_run text H).
Defined.

Lemma X10_short_block_ends_run_witness :
  loadable cut_short_run /\ browser_ok cut_short_run
  /\ nth_error (lines_of (innerText cut_short_run)) 1 = Some marker
  /\ length (lines_of (innerText cut_short_run)) < 1 + 10
  /\ outcome cut_short_run = Rejected TypeError
  /\ writes (trace cut_short_run) = []
  /\ In BrowserLaunched (trace cut_short_run)
  /\ ~ In BrowserClosed (trace cut_short_run).
Proof.
  assert (H1 : loadable cut_short_run) by (exists VNull; reflexivity).
  assert (H2 : browser_ok cut_short_run) by apply all_resolve_ok.
  assert (H3 : nth_error (lines_of (innerText cut_short_run)) 1 = Some marker)
    by concrete.
  assert (H4 : length (lines_of (innerText cut_short_run)) < 1 + 10)
    by (vm_compute; lia).
  repeat (split; [assumption|]).
  exact (X10_short_block_ends_run cut_short_run 1 H1 H2 H3 H4).
Defined.

Lemma X11_foreign_file_is_overwritten_witness :
  loaded array_file_run (VArray []) /\ foreign_value (VArray []) = true
  /\ browser_ok array_file_run
  /\ parse_rows (lines_of (innerText array_file_run))
     = Ok [sample_row "W2024-10"]
  /\ exists text,
       JSON_stringify (metrics_value monday_one_block) 2 = Some text
       /\ writes (trace array_file_run) = [text]
       /\ stored_after array_file_run = Some text.
Proof.
  assert (H1 : loaded array_file_run (VArray [])) by concrete.
  assert (H2 : foreign_value (VArray []) = true) by reflexivity.
  assert (H3 : browser_ok array_file_run) by apply all_resolve_ok.
  assert (H4 : parse_rows (lines_of (innerText array_file_run))
               = Ok [sample_row "W2024-10"]) by concrete.
  repeat (split; [assumption|]).
  exact (X11_foreign_file_is_overwritten array_file_run (VArray []) _
           H1 H2 H3 H4 ltac:(discriminate)).
Defined.

Lemma compact_file_text :
  exists text,
    JSON_stringify (metrics_value monday_one_block) 0 = Some text
    /\ stored compact_file_run = Some text.
Proof. eexists. split; concrete. Qed.

Lemma X12_stored_snapshot_decides_witness :
  snapshot_defined monday_one_block = true
  /\ browser_ok compact_file_run
  /\ parse_rows (lines_of (innerText compact_file_run))
     = Ok [sample_row "W2024-10"]
  /\ (writes (trace compact_file_run) = []
      <-> monday_one_block
          = build_metrics (now compact_file_run) [sample_row "W2024-10"]).
Proof.
  destruct compact_file_text as (text & Ht & Hs).
  assert (H1 : snapshot_defined monday_one_block = true) by reflexivity.
  assert (H2 : browser_ok compact_file_run) by apply all_resolve_ok.
  assert (H3 : parse_rows (lines_of (innerText compact_file_run))
               = Ok [sample_row "W2024-10"]) by concrete.
  repeat (split; [assumption|]).
  exact (X12_stored_snapshot_decides compact_file_run monday_one_block 0 text
           _ H1 Ht Hs H2 H3 ltac:(discriminate)).
Defined.


Lemma X14_outcomes_witness :
  outcome no_block_run = Exited 1 /\ 1%N = 1%N.
Proof.
  assert (H : outcome no_block_run = Exited 1) by concrete.
  split; [exact H|].
  exact (proj1 (proj2 (X14_outcomes no_block_run)) 1%N H).
Defined.

Lemma sample_lines_clean : Forall clean_line (sample_lines "W2024-10").
Proof. repeat constructor; apply clean_lineb_ok; reflexivity. Qed.

Lemma X15_lines_of_unlines_witness :
  Forall clean_line (sample_lines "W2024-10")
  /\ lines_of (unlines (sample_lines "W2024-10")) = sample_lines "W2024-10".
Proof.
  split; [exact sample_lines_clean|].
  exact (X15_lines_of_unlines _ sample_lines_clean).
Defined.
